(** * HookManager: a shallow embedding of the runtime-patching core of main.py

    The development models the hook engine of [src/main.py]: the custom
    exceptions, the [HookManager] class (target resolution, attribute
    traversal, the hook / patch / restore / detach transitions) and the call
    behaviour of the wrappers that [patch_print] installs.

    Python objects live in a heap indexed by locations; an object carries
    its [__name__], its attribute table and, when it is callable, its code.
    Everything the class mutates (the two containers of the manager, the
    attribute tables, standard output, the module-level flag
    [WrapperinitEnd]) is threaded through a state-and-exception monad in
    which the state survives a raised exception, as it does in Python.

    The second part of the definitions covers the rest of the file:
    [dump_functions], the [HookUtilities] class and the callbacks of the
    application that do not depend on the widget toolkit or the network. *)

From Stdlib Require Import Ascii String.
From stdpp Require Import gmap strings list fin_maps pretty sorting.

Open Scope string_scope.
Open Scope nat_scope.

(** ** Strings: [str.split] and [str.join] *)

(** [s.split(sep)] for a one-character separator: never returns the empty
    list, and the empty string splits into one empty part. *)
Fixpoint str_split (sep : ascii) (s : string) : list string :=
  match s with
  | EmptyString => [EmptyString]
  | String c rest =>
      if decide (c = sep) then EmptyString :: str_split sep rest
      else match str_split sep rest with
           | [] => [String c EmptyString]
           | p :: ps => String c p :: ps
           end
  end.

(** [sep.join(parts)]. *)
Fixpoint str_join (sep : string) (parts : list string) : string :=
  match parts with
  | [] => EmptyString
  | [p] => p
  | p :: rest => p +:+ sep +:+ str_join sep rest
  end.

(** [s.startswith(prefix)]. *)
Fixpoint startswith (prefix s : string) : bool :=
  match prefix, s with
  | EmptyString, _ => true
  | String a p, String b t => if decide (a = b) then startswith p t else false
  | String _ _, EmptyString => false
  end.

Definition dot : ascii := "."%char.

(** ** Exceptions *)

(** The three classes derived from [HookManagerError] carry the target they
    were built with; the built-in exceptions that the modelled code can let
    escape are listed by class. *)
Inductive exn : Type :=
  | ModuleNotFoundError (msg : string)
  | ValueError (msg : string)
  | TypeError (msg : string)
  | AttributeError
  | IndexError
  | KeyError
  | RecursionError
  | NotHookedError (target : string)
  | AlreadyHookedError (target : string)
  | NotPatchedError (target : string).

(** [HookManagerError.code]: present exactly on the typed errors. *)
Definition code (e : exn) : option string :=
  match e with
  | NotHookedError _ => Some "NotHooked"
  | AlreadyHookedError _ => Some "AlreadyHooked"
  | NotPatchedError _ => Some "NotPatched"
  | _ => None
  end.

(** [str(e)] for the typed errors: the text that [HookManagerError] passes
    to [Exception.__init__]. *)
Definition exn_str (e : exn) : option string :=
  match e with
  | NotHookedError t =>
      Some ("[NotHooked] Target '" +:+ t +:+ "' is not hooked.")
  | AlreadyHookedError t =>
      Some ("[AlreadyHooked] Target '" +:+ t +:+ "' is already hooked.")
  | NotPatchedError t =>
      Some ("[NotPatched] Target '" +:+ t +:+ "' is not patched.")
  | _ => None
  end.

Inductive result (A : Type) : Type :=
  | Ok (a : A)
  | Raise (e : exn).
Arguments Ok {A} a.
Arguments Raise {A} e.

(** ** Objects and the heap *)

Abbreviation loc := positive.

(** What calling an object does.  [Builtin] stands for a callable without
    [__globals__] and [__code__] (a C function); [Function] for a Python
    function, whose body is either opaque user code or the body of the
    closure [wrapped] that [patch_print] defines, with its two captured
    variables. *)
Inductive body : Type :=
  | UserCode (id : nat)
  | WrappedCode (message : string) (original : loc).

Inductive callable : Type :=
  | NotCallable
  | Builtin (id : nat)
  | Function (b : body) (globals : gmap string loc).

Record object : Type := Object {
  obj_name : string;              (* __name__ *)
  obj_attrs : gmap string loc;    (* what getattr / setattr / dir see *)
  obj_call : callable;
}.

(** Insertion-ordered dictionaries, as Python's [dict]: a list of bindings
    in which [dict_set] replaces the value of a key that is present and
    appends a key that is not, so that no key occurs twice. *)
Section dict.
Context {K V : Type} `{EqDecision K}.

Fixpoint dict_get (k : K) (d : list (K * V)) : option V :=
  match d with
  | [] => None
  | (k', v) :: d' => if decide (k = k') then Some v else dict_get k d'
  end.

(** [k in d] *)
Definition dict_mem (k : K) (d : list (K * V)) : bool :=
  match dict_get k d with Some _ => true | None => false end.

(** [d[k] = v] *)
Fixpoint dict_set (k : K) (v : V) (d : list (K * V)) : list (K * V) :=
  match d with
  | [] => [(k, v)]
  | (k', v') :: d' =>
      if decide (k = k') then (k, v) :: d' else (k', v') :: dict_set k v d'
  end.

Definition dict_remove (k : K) (d : list (K * V)) : list (K * V) :=
  filter (λ kv, kv.1 ≠ k) d.

(** [d.pop(k)]: [None] stands for the [KeyError]. *)
Definition dict_pop (k : K) (d : list (K * V)) : option (V * list (K * V)) :=
  match dict_get k d with
  | Some v => Some (v, dict_remove k d)
  | None => None
  end.
End dict.

(** The key of a record: module identity and the attribute chain as a tuple. *)
Abbreviation key := (loc * list string)%type.

Record HookManager : Type := mkHookManager {
  originals : list (key * loc);   (* {(module, attr_path): original_func} *)
  hooked : gset string;           (* {target_path} *)
}.

(** [HookManager.__init__] *)
Definition __init__ : HookManager := mkHookManager [] ∅.

(** The part of the process the manager reads and writes. *)
Record world : Type := mkWorld {
  sys_modules : gmap string loc;  (* what importlib can import, by name *)
  main_globals : gmap string loc; (* the module namespace of main.py *)
  heap : gmap loc object;
  stdout : list string;           (* chunks written, oldest first *)
  WrapperinitEnd : bool;
}.

Record state : Type := mkState {
  self : HookManager;
  env : world;
}.

(** ** The state-and-exception monad *)

Definition M (A : Type) : Type := state → result A * state.

Definition ret {A} (a : A) : M A := λ s, (Ok a, s).
Definition raise {A} (e : exn) : M A := λ s, (Raise e, s).
Definition bind {A B} (m : M A) (k : A → M B) : M B :=
  λ s, match m s with
       | (Ok a, s') => k a s'
       | (Raise e, s') => (Raise e, s')
       end.
Definition lift {A} (r : result A) : M A := λ s, (r, s).
Definition gets {A} (f : state → A) : M A := λ s, (Ok (f s), s).
Definition modify (f : state → state) : M unit := λ s, (Ok tt, f s).

Declare Scope py_scope.
Delimit Scope py_scope with py.
Notation "x ← m ; k" := (bind m (λ x, k))
  (at level 20, m at level 100, k at level 200, only parsing) : py_scope.
Notation "' x ← m ; k" := (bind m (λ x, k))
  (at level 20, x pattern, m at level 100, k at level 200, only parsing)
  : py_scope.
Notation "m ;; k" := (bind m (λ _, k))
  (at level 100, k at level 200, right associativity, only parsing)
  : py_scope.
Open Scope py_scope.

Definition set_originals (d : list (key * loc)) (s : state) : state :=
  mkState (mkHookManager d (hooked (self s))) (env s).
Definition set_hooked (h : gset string) (s : state) : state :=
  mkState (mkHookManager (originals (self s)) h) (env s).
Definition set_heap (h : gmap loc object) (s : state) : state :=
  mkState (self s)
    (mkWorld (sys_modules (env s)) (main_globals (env s)) h (stdout (env s)) (WrapperinitEnd (env s))).
Definition set_WrapperinitEnd (b : bool) (s : state) : state :=
  mkState (self s)
    (mkWorld (sys_modules (env s)) (main_globals (env s)) (heap (env s)) (stdout (env s)) b).

(** [sys.stdout.write(chunk)] *)
Definition write (chunk : string) : M unit :=
  modify (λ s, mkState (self s)
    (mkWorld (sys_modules (env s)) (main_globals (env s)) (heap (env s))
             (stdout (env s) ++ [chunk]) (WrapperinitEnd (env s)))).

Definition newline : string := String "010"%char EmptyString.

(** [print(text)] *)
Definition print (text : string) : M unit := write (text +:+ newline).

(** ** importlib and attribute access *)

(** [importlib.import_module(name)] with no [package] argument: a relative
    name is a [TypeError], the empty name a [ValueError], a name that is not
    importable a [ModuleNotFoundError]. *)
Definition import_module (mods : gmap string loc) (name : string) : result loc :=
  if startswith "." name then
    Raise (TypeError
      ("the 'package' argument is required to perform a relative import for '"
       +:+ name +:+ "'"))
  else if decide (name = EmptyString) then Raise (ValueError "Empty module name")
  else match mods !! name with
       | Some m => Ok m
       | None => Raise (ModuleNotFoundError ("No module named '" +:+ name +:+ "'"))
       end.

(** [getattr(obj, attr)] *)
Definition getattr (h : gmap loc object) (obj : loc) (attr : string) : result loc :=
  match h !! obj with
  | Some o => match obj_attrs o !! attr with
              | Some v => Ok v
              | None => Raise AttributeError
              end
  | None => Raise AttributeError
  end.

(** [setattr(obj, attr, value)] *)
Definition setattr (h : gmap loc object) (obj : loc) (attr : string) (value : loc)
  : result (gmap loc object) :=
  match h !! obj with
  | Some o =>
      Ok (<[obj := Object (obj_name o) (<[attr := value]> (obj_attrs o)) (obj_call o)]> h)
  | None => Raise AttributeError
  end.

(** [obj.__name__], read on modules and functions only. *)
Definition __name__ (h : gmap loc object) (obj : loc) : string :=
  match h !! obj with Some o => obj_name o | None => EmptyString end.

(** ** HookManager *)

(** The loop of [_resolve_target]: [i] runs from [len(parts)] down to 1;
    only [ModuleNotFoundError] is caught. *)
Fixpoint _resolve_loop (mods : gmap string loc) (target_path : string)
    (parts : list string) (i : nat) : result key :=
  match i with
  | O => Raise (ModuleNotFoundError ("Cannot import module from " +:+ target_path))
  | S i' =>
      let module_name := str_join "." (take i parts) in
      match import_module mods module_name with
      | Ok module => let attr_path := drop i parts in Ok (module, attr_path)
      | Raise (ModuleNotFoundError _) => _resolve_loop mods target_path parts i'
      | Raise e => Raise e
      end
  end.

Definition _resolve_target (mods : gmap string loc) (target_path : string)
  : result key :=
  let parts := str_split dot target_path in
  _resolve_loop mods target_path parts (length parts).

Fixpoint _get_attr (h : gmap loc object) (obj : loc) (attr_path : list string)
  : result loc :=
  match attr_path with
  | [] => Ok obj
  | attr :: rest =>
      match getattr h obj attr with
      | Ok obj' => _get_attr h obj' rest
      | Raise e => Raise e
      end
  end.

(** [attr_path[:-1]] is walked first; [attr_path[-1]] is what raises
    [IndexError] on the empty chain. *)
Definition _set_attr (h : gmap loc object) (obj : loc) (attr_path : list string)
    (value : loc) : result (gmap loc object) :=
  match _get_attr h obj (removelast attr_path) with
  | Ok obj' =>
      match last attr_path with
      | Some attr => setattr h obj' attr value
      | None => Raise IndexError
      end
  | Raise e => Raise e
  end.

Definition _log (msg : string) : M unit := print ("[HooksNotice] " +:+ msg).

Definition do_resolve (target_path : string) : M key :=
  λ s, (_resolve_target (sys_modules (env s)) target_path, s).

Definition do_get_attr (obj : loc) (attr_path : list string) : M loc :=
  λ s, (_get_attr (heap (env s)) obj attr_path, s).

Definition do_set_attr (obj : loc) (attr_path : list string) (value : loc) : M unit :=
  λ s, match _set_attr (heap (env s)) obj attr_path value with
       | Ok h' => (Ok tt, set_heap h' s)
       | Raise e => (Raise e, s)
       end.

(** Creation of a new object: a location that the heap does not use yet. *)
Definition alloc (o : object) : M loc :=
  λ s, let l := fresh (dom (heap (env s))) in
       (Ok l, set_heap (<[l := o]> (heap (env s))) s).

Definition hook (target_path : string) : M unit :=
  '(module, attr_path) ← do_resolve target_path;
  let key := (module, attr_path) in
  originals_ ← gets (λ s, originals (self s));
  if dict_mem key originals_ then raise (AlreadyHookedError target_path)
  else
    original ← do_get_attr module attr_path;
    modify (λ s, set_originals (dict_set key original (originals (self s))) s);;
    modify (λ s, set_hooked ({[target_path]} ∪ hooked (self s)) s);;
    _log ("Hooked " +:+ target_path).

(** [wrapped] is defined in main.py, whose namespace becomes its
    [__globals__].  [message] defaults to ["hi"] in the source. *)
Definition patch_print (target_path : string) (message : string) : M unit :=
  '(module, attr_path) ← do_resolve target_path;
  let key := (module, attr_path) in
  originals_ ← gets (λ s, originals (self s));
  if negb (dict_mem key originals_) then raise (NotHookedError target_path)
  else
    match dict_get key originals_ with
    | None => raise KeyError
    | Some original =>
        globals ← gets (λ s, main_globals (env s));
        wrapped ← alloc (Object "wrapped" ∅
                           (Function (WrappedCode message original) globals));
        do_set_attr module attr_path wrapped;;
        _log ("Patched " +:+ str_join "." attr_path +:+ " with print wrapper.")
    end.

(** [dir(module)]; the order of the names does not matter to the loop that
    uses it, which prints the same dot for every name. *)
Definition dir (h : gmap loc object) (obj : loc) : list string :=
  match h !! obj with
  | Some o => (map_to_list (obj_attrs o)).*1
  | None => []
  end.

(** The loop of [patch_function] over [dir(module)]. *)
Fixpoint copy_symbols (module : loc) (names : list string)
    (func_globals : gmap string loc) (symbol_count : nat)
  : M (gmap string loc * nat) :=
  match names with
  | [] => ret (func_globals, symbol_count)
  | name :: rest =>
      if startswith "__" name then
        copy_symbols module rest func_globals symbol_count
      else
        h ← gets (λ s, heap (env s));
        match getattr h module name with
        | Ok attr =>
            let func_globals := <[name := attr]> func_globals in
            let symbol_count := S symbol_count in
            write ".";;
            (if decide (symbol_count mod 30 = 0) then print "" else ret tt);;
            copy_symbols module rest func_globals symbol_count
        | Raise _ => copy_symbols module rest func_globals symbol_count
        end
  end.

(** [func.__globals__], [func.__code__] and the other function attributes
    exist on Python functions only. *)
Definition function_parts (h : gmap loc object) (func : loc)
  : result (string * body * gmap string loc) :=
  match h !! func with
  | Some o => match obj_call o with
              | Function b g => Ok (obj_name o, b, g)
              | _ => Raise AttributeError
              end
  | None => Raise AttributeError
  end.

(** [time.sleep(1)] has no counterpart in the model.  The attributes of
    [func] are read in one step: the loop between the first and the last of
    these reads does not change the heap. *)
Definition patch_function (target_path : string) (func : loc) : M unit :=
  '(module, attr_path) ← do_resolve target_path;
  let key := (module, attr_path) in
  originals_ ← gets (λ s, originals (self s));
  if negb (dict_mem key originals_) then raise (NotHookedError target_path)
  else
    _log ("Preparing wrapper for " +:+ str_join "." attr_path +:+ ":");;
    print "[Loader] MLoader Modded V1.0";;
    print "[Loader] MLoader -> Modest 1.0";;
    h ← gets (λ s, heap (env s));
    '(func_name, func_code, globals) ← lift (function_parts h func);
    '(func_globals, _) ← copy_symbols module (dir h module) globals 0;
    rebound ← alloc (Object func_name ∅ (Function func_code func_globals));
    do_set_attr module attr_path rebound;;
    print (newline +:+ "[HooksNotice] Wrapper is ready and patched.");;
    modify (set_WrapperinitEnd true).

(** The argument [self.originals.pop(key)] is evaluated before [_set_attr]
    is entered. *)
Definition restore (target_path : string) : M unit :=
  '(module, attr_path) ← do_resolve target_path;
  let key := (module, attr_path) in
  originals_ ← gets (λ s, originals (self s));
  if negb (dict_mem key originals_) then raise (NotHookedError target_path)
  else
    match dict_pop key originals_ with
    | None => raise KeyError
    | Some (original, rest) =>
        modify (set_originals rest);;
        do_set_attr module attr_path original;;
        modify (λ s, set_hooked (hooked (self s) ∖ {[target_path]}) s);;
        _log ("Restored " +:+ target_path)
    end.

Definition unhook_target (target_path : string) : M unit :=
  '(module, attr_path) ← do_resolve target_path;
  let key := (module, attr_path) in
  originals_ ← gets (λ s, originals (self s));
  if negb (dict_mem key originals_) then raise (NotHookedError target_path)
  else
    match dict_pop key originals_ with
    | None => raise KeyError
    | Some (_, rest) =>
        modify (set_originals rest);;
        modify (λ s, set_hooked (hooked (self s) ∖ {[target_path]}) s);;
        _log ("Unhooked " +:+ target_path +:+ " (function left modified)")
    end.

(** The loop of [unhook]: one notice per record, in insertion order. *)
Fixpoint unhook_loop (items : list (key * loc)) : M unit :=
  match items with
  | [] => ret tt
  | ((module, attr_path), _) :: rest =>
      h ← gets (λ s, heap (env s));
      _log ("Unhooked " +:+ __name__ h module +:+ "." +:+ str_join "." attr_path);;
      unhook_loop rest
  end.

Definition unhook : M unit :=
  originals_ ← gets (λ s, originals (self s));
  match originals_ with
  | [] => raise (NotPatchedError "No hooks to remove.")
  | _ :: _ =>
      unhook_loop originals_;;
      modify (set_originals []);;
      modify (set_hooked ∅);;
      _log "Unhooked all"
  end.

(** ** Calling an object *)

(** What a call produces: the chunks it writes to standard output, oldest
    first, and what it returns or raises. *)
Abbreviation outcome := (list string * result loc)%type.

Section call.
(** Opaque code is described by what it writes and returns for given
    arguments. *)
Variable builtin_sem : nat → list loc → list (string * loc) → outcome.
Variable user_sem :
  nat → gmap string loc → list loc → list (string * loc) → outcome.

(** A call of [f] with positional and keyword arguments, with [depth]
    frames left before the interpreter raises [RecursionError].  The
    [WrappedCode] case is the body of [wrapped]: [print(message)], then
    the result of [original] on the same arguments is returned. *)
Fixpoint call (depth : nat) (h : gmap loc object) (f : loc)
    (args : list loc) (kwargs : list (string * loc)) : outcome :=
  match depth with
  | O => ([], Raise RecursionError)
  | S depth' =>
      match h !! f with
      | None => ([], Raise (TypeError "object is not callable"))
      | Some o =>
          match obj_call o with
          | NotCallable => ([], Raise (TypeError "object is not callable"))
          | Builtin id => builtin_sem id args kwargs
          | Function (UserCode id) globals => user_sem id globals args kwargs
          | Function (WrappedCode message original) _ =>
              let '(out, r) := call depth' h original args kwargs in
              ((message +:+ newline) :: out, r)
          end
      end
  end.
End call.

(** ** Programs: sequences of manager calls *)

Inductive op : Type :=
  | DoHook (target_path : string)
  | DoPatchPrint (target_path : string) (message : string)
  | DoPatchFunction (target_path : string) (func : loc)
  | DoRestore (target_path : string)
  | DoUnhookTarget (target_path : string)
  | DoUnhook.

Definition exec (o : op) : M unit :=
  match o with
  | DoHook p => hook p
  | DoPatchPrint p msg => patch_print p msg
  | DoPatchFunction p f => patch_function p f
  | DoRestore p => restore p
  | DoUnhookTarget p => unhook_target p
  | DoUnhook => unhook
  end.

(** A caller that stops at the first exception. *)
Fixpoint run (ops : list op) : M unit :=
  match ops with
  | [] => ret tt
  | o :: rest => exec o;; run rest
  end.

(** A caller that catches every exception and goes on. *)
Fixpoint run_all (ops : list op) (s : state) : state :=
  match ops with
  | [] => s
  | o :: rest => run_all rest (exec o s).2
  end.

(** ** Notions used to state the properties *)



(** No attribute refers to a location without an object. *)
Definition closed (h : gmap loc object) : Prop :=
  map_Forall (λ _ o, map_Forall (λ _ v, is_Some (h !! v)) (obj_attrs o)) h.

(** The two patch calls. *)
Definition is_patch (o : op) : Prop :=
  match o with
  | DoPatchPrint _ _ | DoPatchFunction _ _ => True
  | _ => False
  end.


(** The path resolves to a key that has a record. *)
Definition has_record (s : state) (p : string) : Prop :=
  match _resolve_target (sys_modules (env s)) p with
  | Ok k => is_Some (dict_get k (originals (self s)))
  | Raise _ => False
  end.

(** Every path in the hooked set has a record. *)
Definition hooked_have_records (s : state) : Prop :=
  set_Forall (has_record s) (hooked (self s)).

(** The two paths do not resolve to one key. *)
Definition different_key (s : state) (q p : string) : Prop :=
  match _resolve_target (sys_modules (env s)) q,
        _resolve_target (sys_modules (env s)) p with
  | Ok k1, Ok k2 => k1 ≠ k2
  | _, _ => True
  end.

(** No other hooked path resolves to the key of [p]. *)
Definition sole_path (s : state) (p : string) : Prop :=
  set_Forall (λ q, q ≠ p → different_key s q p) (hooked (self s)).

(** If [restore p] finds a record, its write-back does not raise. *)
Definition writes_back (s : state) (p : string) : Prop :=
  match _resolve_target (sys_modules (env s)) p with
  | Ok (m, chain) =>
      match dict_get (m, chain) (originals (self s)) with
      | Some v => match _set_attr (heap (env s)) m chain v with
                  | Ok _ => True
                  | Raise _ => False
                  end
      | None => True
      end
  | Raise _ => True
  end.

Definition guard (o : op) (s : state) : Prop :=
  match o with
  | DoRestore p => sole_path s p ∧ writes_back s p
  | DoUnhookTarget p => sole_path s p
  | _ => True
  end.

(** Every call of the sequence is made in a state that satisfies its guard;
    the caller goes on after an exception. *)
Fixpoint guarded (ops : list op) (s : state) : Prop :=
  match ops with
  | [] => True
  | o :: rest => guard o s ∧ guarded rest (exec o s).2
  end.

(** These notions can be decided, so that they can be evaluated on a given
    process. *)
#[global] Instance has_record_dec s p : Decision (has_record s p).
Proof. unfold has_record. destruct (_resolve_target _ p); apply _. Defined.

#[global] Instance hooked_have_records_dec s : Decision (hooked_have_records s).
Proof. unfold hooked_have_records. apply _. Defined.

#[global] Instance different_key_dec s q p : Decision (different_key s q p).
Proof.
  unfold different_key.
  destruct (_resolve_target (sys_modules (env s)) q),
    (_resolve_target (sys_modules (env s)) p); apply _.
Defined.

#[global] Instance sole_path_dec s p : Decision (sole_path s p).
Proof. unfold sole_path. apply _. Defined.

#[global] Instance writes_back_dec s p : Decision (writes_back s p).
Proof.
  unfold writes_back. destruct (_resolve_target _ p) as [[m chain]|]; [|apply _].
  destruct (dict_get _ _); [|apply _]. destruct (_set_attr _ _ _ _); apply _.
Defined.

#[global] Instance guard_dec o s : Decision (guard o s).
Proof. destruct o; simpl; apply _. Defined.

#[global] Instance guarded_dec ops s : Decision (guarded ops s).
Proof. revert s. induction ops as [|o rest IH]; intros s; simpl; apply _. Defined.

#[global] Instance closed_dec h : Decision (closed h).
Proof. unfold closed. apply _. Defined.

(** ** A small process, used to evaluate the definitions

    Two modules, as [os] and [os.path] in CPython: the second is importable
    under two names, and each module refers to the other.  [join] is a Python
    function, [getcwd] a built-in. *)
Definition ex_heap : gmap loc object :=
  <[1%positive := Object "os"
      (<["path" := 2%positive]> (<["getcwd" := 4%positive]> ∅)) NotCallable]>
  (<[2%positive := Object "posixpath"
      (<["join" := 3%positive]> (<["os" := 1%positive]> ∅)) NotCallable]>
  (<[3%positive := Object "join" ∅ (Function (UserCode 0) ∅)]>
  (<[4%positive := Object "getcwd" ∅ (Builtin 0)]> ∅))).

Definition ex_modules : gmap string loc :=
  <["os" := 1%positive]>
  (<["os.path" := 2%positive]> (<["posixpath" := 2%positive]> ∅)).

Definition ex_state : state :=
  mkState __init__ (mkWorld ex_modules ∅ ex_heap [] false).

(** What the two opaque callables of the small process do: [join] writes
    nothing and returns its first argument, [getcwd] returns the object at
    location 4. *)
Definition ex_builtin_sem (id : nat) (args : list loc) (kwargs : list (string * loc))
  : outcome := ([], Ok 4%positive).

Definition ex_user_sem (id : nat) (globals : gmap string loc) (args : list loc)
    (kwargs : list (string * loc)) : outcome :=
  match args with
  | [] => ([], Raise (TypeError "join() missing 1 required positional argument"))
  | a :: _ => ([], Ok a)
  end.

(** * The rest of main.py *)

(** ** inspect.getmembers and HookManager.dump_functions *)

(** [inspect.isfunction(value)]: true of Python functions only. *)
Definition isfunction (h : gmap loc object) (value : loc) : bool :=
  match h !! value with
  | Some o => match obj_call o with Function _ _ => true | _ => false end
  | None => false
  end.

(** The order of the pairs that [inspect.getmembers] returns: by name. *)
Definition member_le (x y : string * loc) : Prop := String.le x.1 y.1.

#[global] Instance member_le_dec : RelDecision member_le.
Proof. intros x y. unfold member_le. apply _. Defined.

(** [inspect.getmembers(obj, predicate)]: the attributes that satisfy the
    predicate, as (name, value) pairs sorted by name. *)
Definition getmembers (h : gmap loc object) (obj : loc) (predicate : loc → bool)
  : list (string * loc) :=
  match h !! obj with
  | Some o =>
      merge_sort member_le
        (filter (λ kv, predicate kv.2 = true) (map_to_list (obj_attrs o)))
  | None => []
  end.

(** The loop of [dump_functions]: [enumerate(funcs, 1)]. *)
Fixpoint dump_loop (i : nat) (funcs : list string) : M unit :=
  match funcs with
  | [] => ret tt
  | f :: rest =>
      print (pretty i +:+ ". Function: " +:+ f);;
      dump_loop (S i) rest
  end.

Definition dump_functions (module : loc) : M unit :=
  h ← gets (λ s, heap (env s));
  let funcs := (getmembers h module (isfunction h)).*1 in
  dump_loop 1 funcs.

(** ** HookUtilities

    The class holds one manager, which is the manager of the state here. *)

(** [HookUtilities.__init__]: [hook_manager or HookManager()]. *)
Definition HookUtilities__init__ (hook_manager : option HookManager) : HookManager :=
  match hook_manager with
  | Some hm => hm
  | None => __init__
  end.

Definition is_hooked (target_path : string) : M bool :=
  gets (λ s, bool_decide (target_path ∈ hooked (self s))).

(** [list(self.hook_manager.hooked)]: the elements in some order. *)
Definition list_hooks : M (list string) :=
  gets (λ s, elements (hooked (self s))).

Definition scan_module_functions (module_name : string) : M (list string) :=
  mods ← gets (λ s, sys_modules (env s));
  match import_module mods module_name with
  | Ok module =>
      h ← gets (λ s, heap (env s));
      ret (getmembers h module (isfunction h)).*1
  | Raise (ModuleNotFoundError _) =>
      print ("[HookUtilities] Module '" +:+ module_name +:+ "' not found.");;
      ret []
  | Raise e => raise e
  end.

(** [self.hook_manager.originals.get(key, None)] *)
Definition get_original_function (target_path : string) : M (option loc) :=
  '(module, attr_path) ← do_resolve target_path;
  let key := (module, attr_path) in
  gets (λ s, dict_get key (originals (self s))).

Section safe_call.
Variable builtin_sem : nat → list loc → list (string * loc) → outcome.
Variable user_sem :
  nat → gmap string loc → list loc → list (string * loc) → outcome.
(** [str(e)], which the diagnostic of [safe_call] prints; for the built-in
    exceptions the text is the interpreter's. *)
Variable str_exc : exn → string.




End safe_call.

(** ** UltraInjectorApp

    The widgets are reduced to the fields that the callbacks read and
    write. *)

Definition TARGET_PACKAGE : string := "com.axelbolt.standoff2".

(** What [Clock.schedule_once] is given: [sys.exit(code)]. *)
Inductive callback : Type :=
  | SysExit (exit_code : nat).

Record UltraInjectorApp : Type := mkApp {
  theme_style : string;                    (* theme_cls.theme_style *)
  method_button_text : string;             (* ids.method_button.text *)
  current : string;                        (* root.current *)
  menu_open : bool;
  dialog : option (string * string);       (* title and text of the last dialog opened *)
  scheduled : list (callback * nat);       (* callbacks and their delays *)
}.

Definition set_method (m : string) (app : UltraInjectorApp) : UltraInjectorApp :=
  mkApp (theme_style app) m (current app) false (dialog app) (scheduled app).

Definition perform_action (app : UltraInjectorApp) : UltraInjectorApp :=
  let method := method_button_text app in
  let '(message, scheduled') :=
    if decide (method = "Patch") then
      ("Hooked and patched " +:+ TARGET_PACKAGE, scheduled app)
    else if decide (method = "Inject") then
      ("Injected", scheduled app)
    else if decide (method = "Die") then
      ("Alr goodbyeðŸ˜”", (scheduled app ++ [(SysExit 0, 3)])%list)
    else
      ("No method selected", scheduled app) in
  mkApp (theme_style app) method (current app) (menu_open app)
    (Some (method, message)) scheduled'.

Definition change_screen (name : string) (app : UltraInjectorApp) : UltraInjectorApp :=
  mkApp (theme_style app) (method_button_text app) name (menu_open app)
    (dialog app) (scheduled app).

Definition toggle_dark_mode (app : UltraInjectorApp) : UltraInjectorApp :=
  mkApp (if decide (theme_style app = "Dark") then "Light" else "Dark")
    (method_button_text app) (current app) (menu_open app) (dialog app)
    (scheduled app).

(** ** Notions used to state the further properties *)

(** Every record has a marker: a hooked path that resolves to its key. *)
Definition records_have_markers (s : state) : Prop :=
  ∀ k v, dict_get k (originals (self s)) = Some v →
    ∃ p, p ∈ hooked (self s) ∧ _resolve_target (sys_modules (env s)) p = Ok k.


(** Every object of [h] is still an object of [h'], under the same name and
    with the same code. *)
Definition keeps_objects (h h' : gmap loc object) : Prop :=
  ∀ x o, h !! x = Some o →
    ∃ o', h' !! x = Some o' ∧ obj_name o' = obj_name o ∧ obj_call o' = obj_call o.
(** * Properties *)

(** ** The definitions at work *)

Example str_split_dotted : str_split dot "os.path.join" = ["os"; "path"; "join"].
Proof. reflexivity. Qed.

Example str_split_empty : str_split dot "" = [""].
Proof. reflexivity. Qed.

Example str_split_empty_parts : str_split dot "a..b." = ["a"; ""; "b"; ""].
Proof. reflexivity. Qed.

Example resolve_attribute :
  _resolve_target ex_modules "os.path.join" = Ok (2%positive, ["join"]).
Proof. vm_compute. reflexivity. Qed.

Example resolve_module : _resolve_target ex_modules "os.path" = Ok (2%positive, []).
Proof. vm_compute. reflexivity. Qed.

(** Hook, patch and call: the wrapper at location 5 writes its message and
    returns what [join] returns; after [restore] the live attribute is [join]
    again and nothing is written. *)
Example patched_then_restored_call :
  let s1 := (run [DoHook "os.path.join"; DoPatchPrint "os.path.join" "hi"] ex_state).2 in
  let s2 := (restore "os.path.join" s1).2 in
  _get_attr (heap (env s1)) 2%positive ["join"] = Ok 5%positive ∧
  call ex_builtin_sem ex_user_sem 8 (heap (env s1)) 5%positive [4%positive] []
  = (["hi" +:+ newline], Ok 4%positive) ∧
  _get_attr (heap (env s2)) 2%positive ["join"] = Ok 3%positive ∧
  call ex_builtin_sem ex_user_sem 8 (heap (env s2)) 3%positive [4%positive] []
  = ([], Ok 4%positive).
Proof. vm_compute. split_and!; reflexivity. Qed.

(** ** Dictionaries *)

Section dict_facts.
Context {K V : Type} `{EqDecision K}.
Implicit Types (k : K) (v : V) (d : list (K * V)).

Lemma dict_mem_true k d : dict_mem k d = true ↔ is_Some (dict_get k d).
Proof.
  unfold dict_mem. destruct (dict_get k d); split; intros H'; eauto.
  - discriminate.
  - by destruct H'.
Qed.

Lemma dict_mem_false k d : dict_mem k d = false ↔ dict_get k d = None.
Proof. unfold dict_mem. destruct (dict_get k d); split; congruence. Qed.

Lemma dict_get_set_eq k v d : dict_get k (dict_set k v d) = Some v.
Proof.
  induction d as [|[k' v'] d IH]; simpl.
  - by rewrite decide_True.
  - destruct (decide (k = k')) as [->|Hne]; simpl.
    + by rewrite decide_True.
    + by rewrite decide_False.
Qed.

Lemma dict_get_set_ne k k' v d :
  k ≠ k' → dict_get k' (dict_set k v d) = dict_get k' d.
Proof.
  intros Hne. induction d as [|[k0 v0] d IH]; simpl.
  - by rewrite decide_False.
  - destruct (decide (k = k0)) as [->|Hk]; simpl.
    + by rewrite !decide_False.
    + by rewrite IH.
Qed.

Lemma dict_get_remove_eq k d : dict_get k (dict_remove k d) = None.
Proof.
  unfold dict_remove. induction d as [|[k' v'] d IH]; [done|].
  rewrite filter_cons. simpl. case_decide as Hk; simpl; [|done].
  by rewrite decide_False.
Qed.

Lemma dict_get_remove_ne k k' d :
  k ≠ k' → dict_get k' (dict_remove k d) = dict_get k' d.
Proof.
  intros Hne. unfold dict_remove. induction d as [|[k0 v0] d IH]; [done|].
  rewrite filter_cons. simpl. case_decide as Hk; simpl.
  - by rewrite IH.
  - simpl in Hk. subst k0. by rewrite decide_False.
Qed.

End dict_facts.

(** [hooked.discard(p)] *)
Lemma not_elem_of_discard (hk : gset string) (p : string) : p ∉ hk ∖ {[p]}.
Proof. intros [_ Hp]%elem_of_difference. apply Hp. by apply elem_of_singleton. Qed.

(** ** Target resolution *)

Section resolve_facts.
Variable mods : gmap string loc.

(** Only a name that is neither empty nor relative reaches the table of
    modules, and such a name either imports or is not found. *)
Lemma import_module_Ok_inv name m :
  import_module mods name = Ok m →
  ∃ c rest, name = String c rest ∧ c ≠ dot ∧ mods !! name = Some m.
Proof.
  unfold import_module. destruct name as [|c rest]; simpl; [done|].
  destruct (decide ("."%char = c)) as [<-|Hc]; [done|].
  destruct (mods !! String c rest) eqn:E; [|done].
  intros [= ->]. exists c, rest. split_and!; [done| |done].
  unfold dot. congruence.
Qed.






End resolve_facts.






(** A path that begins with a dot: its longest candidate is the path
    itself, a relative module name, and the [TypeError] of [import_module]
    is what [_resolve_target] raises. *)
Lemma resolve_relative_path_raises_TypeError :
  ∃ msg, _resolve_target ex_modules ".os" = Raise (TypeError msg).
Proof. eexists. vm_compute. reflexivity. Qed.

(** ** The transitions, outcome by outcome *)

Ltac unfold_m :=
  unfold bind, gets, modify, raise, ret, lift, do_resolve, do_get_attr,
    do_set_attr, alloc, _log, print, write, set_originals, set_hooked,
    set_heap, set_WrapperinitEnd; simpl.

Section transitions.
Implicit Types (hm : HookManager) (mods gl : gmap string loc).
Implicit Types (h : gmap loc object) (out : list string) (flag : bool).
Implicit Types (orig : list (key * loc)) (hk : gset string).
Implicit Types (p : string) (m : loc) (chain : list string).

(** The loop over [dir(module)] writes to standard output and touches
    nothing else. *)
Lemma copy_symbols_frame module names g (n : nat) hm mods gl h out flag :
  ∃ g' n' out',
    copy_symbols module names g n (mkState hm (mkWorld mods gl h out flag))
    = (Ok (g', n'), mkState hm (mkWorld mods gl h out' flag)).
Proof.
  revert g n out. induction names as [|name rest IH]; intros g n out.
  - cbn [copy_symbols]. unfold ret. eauto.
  - cbn [copy_symbols]. destruct (startswith "__" name); [apply IH|].
    unfold bind at 1. unfold gets. cbn [env heap].
    destruct (getattr h module name); [|apply IH].
    unfold bind at 1. unfold write, modify.
    cbn [self env sys_modules heap stdout WrapperinitEnd].
    unfold bind at 1.
    destruct (decide (S n mod 30 = 0)).
    + unfold print, write, modify.
      cbn [self env sys_modules heap stdout WrapperinitEnd]. apply IH.
    + unfold ret. apply IH.
Qed.

Lemma unhook_loop_frame items hm mods gl h out flag :
  ∃ out', unhook_loop items (mkState hm (mkWorld mods gl h out flag))
          = (Ok tt, mkState hm (mkWorld mods gl h out' flag)).
Proof.
  revert out. induction items as [|[[module attr_path] v] rest IH]; intros out.
  - simpl. unfold ret. eauto.
  - simpl. unfold_m. apply IH.
Qed.

Lemma hook_Ok p m chain v orig hk mods gl h out flag :
  _resolve_target mods p = Ok (m, chain) →
  dict_get (m, chain) orig = None →
  _get_attr h m chain = Ok v →
  hook p (mkState (mkHookManager orig hk) (mkWorld mods gl h out flag))
  = (Ok tt,
     mkState (mkHookManager (dict_set (m, chain) v orig) ({[p]} ∪ hk))
       (mkWorld mods gl h (out ++ [("[HooksNotice] " +:+ ("Hooked " +:+ p)) +:+ newline])
          flag)).
Proof.
  intros Hres Hget Hattr. unfold hook. unfold_m. rewrite Hres. simpl.
  unfold dict_mem. rewrite Hget. unfold_m. by rewrite Hattr.
Qed.

Lemma hook_AlreadyHooked p k v s :
  _resolve_target (sys_modules (env s)) p = Ok k →
  dict_get k (originals (self s)) = Some v →
  hook p s = (Raise (AlreadyHookedError p), s).
Proof.
  intros Hres Hget. destruct k as [m chain]. unfold hook. unfold_m.
  rewrite Hres. simpl. unfold dict_mem. by rewrite Hget.
Qed.

(** A call of [hook] that raises leaves everything as it was. *)
Lemma hook_Raise p s e : (hook p s).1 = Raise e → (hook p s).2 = s.
Proof.
  unfold hook. unfold_m.
  destruct (_resolve_target _ p) as [[m chain]|e']; [|done]. simpl.
  destruct (dict_mem _ _); [done|]. unfold_m.
  destruct (_get_attr _ m chain); [|done]. simpl. discriminate.
Qed.

Lemma patch_print_NotHooked p msg k s :
  _resolve_target (sys_modules (env s)) p = Ok k →
  dict_get k (originals (self s)) = None →
  patch_print p msg s = (Raise (NotHookedError p), s).
Proof.
  intros Hres Hget. destruct k as [m chain]. unfold patch_print. unfold_m.
  rewrite Hres. simpl. unfold dict_mem. by rewrite Hget.
Qed.

Lemma patch_function_NotHooked p func k s :
  _resolve_target (sys_modules (env s)) p = Ok k →
  dict_get k (originals (self s)) = None →
  patch_function p func s = (Raise (NotHookedError p), s).
Proof.
  intros Hres Hget. destruct k as [m chain]. unfold patch_function. unfold_m.
  rewrite Hres. simpl. unfold dict_mem. by rewrite Hget.
Qed.

Lemma restore_NotHooked p k s :
  _resolve_target (sys_modules (env s)) p = Ok k →
  dict_get k (originals (self s)) = None →
  restore p s = (Raise (NotHookedError p), s).
Proof.
  intros Hres Hget. destruct k as [m chain]. unfold restore. unfold_m.
  rewrite Hres. simpl. unfold dict_mem. by rewrite Hget.
Qed.

Lemma unhook_target_NotHooked p k s :
  _resolve_target (sys_modules (env s)) p = Ok k →
  dict_get k (originals (self s)) = None →
  unhook_target p s = (Raise (NotHookedError p), s).
Proof.
  intros Hres Hget. destruct k as [m chain]. unfold unhook_target. unfold_m.
  rewrite Hres. simpl. unfold dict_mem. by rewrite Hget.
Qed.

(** Both patches, once the record is found: a new function object is
    created, then [_set_attr] either installs it or raises. *)
Lemma patch_print_found p msg m chain v orig hk mods gl h out flag :
  _resolve_target mods p = Ok (m, chain) →
  dict_get (m, chain) orig = Some v →
  let wrapped := fresh (dom h) in
  let h1 := <[wrapped := Object "wrapped" ∅
                (Function (WrappedCode msg v) gl)]> h in
  patch_print p msg (mkState (mkHookManager orig hk) (mkWorld mods gl h out flag))
  = match _set_attr h1 m chain wrapped with
    | Ok h2 =>
        (Ok tt,
         mkState (mkHookManager orig hk)
           (mkWorld mods gl h2
              (out ++ [("[HooksNotice] " +:+
                        ("Patched " +:+ str_join "." chain
                         +:+ " with print wrapper.")) +:+ newline])
              flag))
    | Raise e =>
        (Raise e, mkState (mkHookManager orig hk) (mkWorld mods gl h1 out flag))
    end.
Proof.
  intros Hres Hget wrapped h1. unfold patch_print. unfold_m.
  rewrite Hres. simpl. unfold dict_mem. rewrite Hget. unfold_m.
  fold wrapped. fold h1.
  by destruct (_set_attr h1 m chain wrapped).
Qed.

Lemma patch_function_found p func m chain v name b g orig hk mods gl h out flag :
  _resolve_target mods p = Ok (m, chain) →
  dict_get (m, chain) orig = Some v →
  function_parts h func = Ok (name, b, g) →
  ∃ g' out1,
    let rebound := fresh (dom h) in
    let h1 := <[rebound := Object name ∅ (Function b g')]> h in
    patch_function p func
      (mkState (mkHookManager orig hk) (mkWorld mods gl h out flag))
    = match _set_attr h1 m chain rebound with
      | Ok h2 =>
          (Ok tt,
           mkState (mkHookManager orig hk)
             (mkWorld mods gl h2
                (out1 ++ [(newline +:+ "[HooksNotice] Wrapper is ready and patched.")
                          +:+ newline])
                true))
      | Raise e =>
          (Raise e, mkState (mkHookManager orig hk) (mkWorld mods gl h1 out1 flag))
      end.
Proof.
  intros Hres Hget Hfunc. unfold patch_function. unfold_m.
  rewrite Hres. simpl. unfold dict_mem. rewrite Hget. unfold_m.
  rewrite Hfunc. simpl.
  edestruct (copy_symbols_frame m (dir h m) g 0 (mkHookManager orig hk) mods gl h)
    as (g' & n' & out1 & ->).
  exists g', out1. simpl.
  by destruct (_set_attr _ m chain _).
Qed.

Lemma patch_function_not_a_function p func m chain v e orig hk mods gl h out flag :
  _resolve_target mods p = Ok (m, chain) →
  dict_get (m, chain) orig = Some v →
  function_parts h func = Raise e →
  ∃ out1,
    patch_function p func
      (mkState (mkHookManager orig hk) (mkWorld mods gl h out flag))
    = (Raise e, mkState (mkHookManager orig hk) (mkWorld mods gl h out1 flag)).
Proof.
  intros Hres Hget Hfunc. unfold patch_function. unfold_m.
  rewrite Hres. simpl. unfold dict_mem. rewrite Hget. unfold_m.
  rewrite Hfunc. eauto.
Qed.

Lemma restore_found p m chain v orig hk mods gl h out flag :
  _resolve_target mods p = Ok (m, chain) →
  dict_get (m, chain) orig = Some v →
  restore p (mkState (mkHookManager orig hk) (mkWorld mods gl h out flag))
  = match _set_attr h m chain v with
    | Ok h' =>
        (Ok tt,
         mkState (mkHookManager (dict_remove (m, chain) orig) (hk ∖ {[p]}))
           (mkWorld mods gl h'
              (out ++ [("[HooksNotice] " +:+ ("Restored " +:+ p)) +:+ newline])
              flag))
    | Raise e =>
        (Raise e,
         mkState (mkHookManager (dict_remove (m, chain) orig) hk)
           (mkWorld mods gl h out flag))
    end.
Proof.
  intros Hres Hget. unfold restore. unfold_m. rewrite Hres. simpl.
  unfold dict_mem, dict_pop. rewrite Hget. unfold_m.
  by destruct (_set_attr h m chain v).
Qed.

Lemma unhook_target_found p m chain v orig hk mods gl h out flag :
  _resolve_target mods p = Ok (m, chain) →
  dict_get (m, chain) orig = Some v →
  unhook_target p (mkState (mkHookManager orig hk) (mkWorld mods gl h out flag))
  = (Ok tt,
     mkState (mkHookManager (dict_remove (m, chain) orig) (hk ∖ {[p]}))
       (mkWorld mods gl h
          (out ++ [("[HooksNotice] " +:+
                    ("Unhooked " +:+ p +:+ " (function left modified)"))
                   +:+ newline])
          flag)).
Proof.
  intros Hres Hget. unfold unhook_target. unfold_m. rewrite Hres. simpl.
  unfold dict_mem, dict_pop. by rewrite Hget.
Qed.

Lemma unhook_nonempty kv orig hk mods gl h out flag :
  ∃ out',
    unhook (mkState (mkHookManager (kv :: orig) hk) (mkWorld mods gl h out flag))
    = (Ok tt, mkState (mkHookManager [] ∅) (mkWorld mods gl h out' flag)).
Proof.
  destruct (unhook_loop_frame (kv :: orig) (mkHookManager (kv :: orig) hk)
              mods gl h out flag) as [out' Hloop].
  unfold unhook. unfold bind at 1. unfold gets. cbn [self originals].
  unfold bind at 1. rewrite Hloop. unfold_m. eauto.
Qed.
End transitions.

(** ** Frames: what a call never touches *)

(** A patch, whatever its outcome, leaves the manager's two containers and
    the table of modules as they were. *)
Lemma patch_frame (o : op) (s : state) :
  is_patch o →
  self (exec o s).2 = self s ∧
  sys_modules (env (exec o s).2) = sys_modules (env s).
Proof.
  destruct s as [[orig hk] [mods gl h out flag]].
  destruct o as [| p msg | p func | | |]; try done; intros _; simpl.
  - destruct (_resolve_target mods p) as [[m chain]|e] eqn:Hres.
    2:{ unfold patch_print. unfold_m. by rewrite Hres. }
    destruct (dict_get (m, chain) orig) as [v|] eqn:Hget.
    2:{ by erewrite patch_print_NotHooked. }
    rewrite (patch_print_found _ _ _ _ _ _ _ _ _ _ _ _ Hres Hget).
    simpl. by destruct (_set_attr _ m chain _).
  - destruct (_resolve_target mods p) as [[m chain]|e] eqn:Hres.
    2:{ unfold patch_function. unfold_m. by rewrite Hres. }
    destruct (dict_get (m, chain) orig) as [v|] eqn:Hget.
    2:{ by erewrite patch_function_NotHooked. }
    destruct (function_parts h func) as [[[name b] g]|e] eqn:Hfunc.
    + destruct (patch_function_found p func m chain v name b g orig hk mods gl h
                  out flag Hres Hget Hfunc) as (g' & out1 & ->).
      by destruct (_set_attr _ m chain _).
    + destruct (patch_function_not_a_function p func m chain v e orig hk mods gl h
                  out flag Hres Hget Hfunc) as (out1 & ->).
      done.
Qed.

Lemma patches_frame (patches : list op) (s : state) :
  Forall is_patch patches →
  self (run_all patches s) = self s ∧
  sys_modules (env (run_all patches s)) = sys_modules (env s).
Proof.
  intros Hall. revert s. induction Hall as [|o rest Ho _ IH]; intros s; [done|].
  simpl. destruct (IH (exec o s).2) as [-> ->]. by apply patch_frame.
Qed.

(** ** Single transitions *)

(** C6.  On a path that resolves to a key without a record, both patches,
    [restore] and [unhook_target] raise [NotHookedError], whose code is
    ["NotHooked"], and leave the whole state as it was: the store, the hooked
    set, the heap and so the live attribute. *)
Theorem no_record_raises_NotHooked (s : state) (p : string) (k : key) :
  _resolve_target (sys_modules (env s)) p = Ok k →
  dict_get k (originals (self s)) = None →
  (∀ msg, patch_print p msg s = (Raise (NotHookedError p), s)) ∧
  (∀ func, patch_function p func s = (Raise (NotHookedError p), s)) ∧
  restore p s = (Raise (NotHookedError p), s) ∧
  unhook_target p s = (Raise (NotHookedError p), s) ∧
  code (NotHookedError p) = Some "NotHooked".
Proof.
  intros Hres Hget. split_and!; [intros msg|intros func| | |done].
  - by eapply patch_print_NotHooked.
  - by eapply patch_function_NotHooked.
  - by eapply restore_NotHooked.
  - by eapply unhook_target_NotHooked.
Qed.

Lemma no_record_raises_NotHooked_witness :
  (∀ msg, patch_print "os.path.join" msg ex_state
          = (Raise (NotHookedError "os.path.join"), ex_state)) ∧
  (∀ func, patch_function "os.path.join" func ex_state
           = (Raise (NotHookedError "os.path.join"), ex_state)) ∧
  restore "os.path.join" ex_state
  = (Raise (NotHookedError "os.path.join"), ex_state) ∧
  unhook_target "os.path.join" ex_state
  = (Raise (NotHookedError "os.path.join"), ex_state) ∧
  code (NotHookedError "os.path.join") = Some "NotHooked".
Proof.
  apply (no_record_raises_NotHooked ex_state "os.path.join" (2%positive, ["join"])).
  - vm_compute. reflexivity.
  - reflexivity.
Defined.

(** C5.  On a path that resolves to a key with a record, [unhook_target]
    returns normally, removes that record and the marker of the path, keeps
    every other record and marker, and leaves the heap as it was: the live
    attribute holds after the call what it held before. *)
Theorem unhook_target_writes_nothing_back
    (s : state) (p : string) (m : loc) (chain : list string) (v : loc) :
  _resolve_target (sys_modules (env s)) p = Ok (m, chain) →
  dict_get (m, chain) (originals (self s)) = Some v →
  ∃ s', unhook_target p s = (Ok tt, s') ∧
    dict_get (m, chain) (originals (self s')) = None ∧
    (p ∉ hooked (self s')) ∧
    (∀ k, k ≠ (m, chain) →
       dict_get k (originals (self s')) = dict_get k (originals (self s))) ∧
    hooked (self s') = (hooked (self s) ∖ {[p]}) ∧
    heap (env s') = heap (env s) ∧
    _get_attr (heap (env s')) m chain = _get_attr (heap (env s)) m chain.
Proof.
  destruct s as [[orig hk] [mods gl h out flag]]. simpl. intros Hres Hget.
  eexists. split; [by eapply unhook_target_found|]. simpl.
  split_and!; [apply dict_get_remove_eq|apply not_elem_of_discard| |done|done|done].
  intros k Hk. by apply dict_get_remove_ne.
Qed.

Lemma unhook_target_writes_nothing_back_witness :
  let s := (run [DoHook "os.path.join"; DoPatchPrint "os.path.join" "hi"] ex_state).2 in
  ∃ s', unhook_target "os.path.join" s = (Ok tt, s') ∧
    dict_get (2%positive, ["join"]) (originals (self s')) = None ∧
    ("os.path.join" ∉ hooked (self s')) ∧
    (∀ k, k ≠ (2%positive, ["join"]) →
       dict_get k (originals (self s')) = dict_get k (originals (self s))) ∧
    hooked (self s') = (hooked (self s) ∖ {["os.path.join"]}) ∧
    heap (env s') = heap (env s) ∧
    _get_attr (heap (env s')) 2%positive ["join"]
    = _get_attr (heap (env s)) 2%positive ["join"].
Proof.
  apply (unhook_target_writes_nothing_back _ "os.path.join" 2%positive ["join"]
           3%positive).
  - vm_compute. reflexivity.
  - vm_compute. reflexivity.
Defined.

(** C7.  After a successful [hook], and any number of patches, a call of
    [hook] on a path that resolves to the same key raises
    [AlreadyHookedError] and leaves the whole state as it was, the stored
    original and the hooked set included. *)
Theorem second_hook_raises_AlreadyHooked
    (s s1 : state) (p1 p2 : string) (k : key) (patches : list op) :
  _resolve_target (sys_modules (env s)) p1 = Ok k →
  _resolve_target (sys_modules (env s)) p2 = Ok k →
  hook p1 s = (Ok tt, s1) →
  Forall is_patch patches →
  let s2 := run_all patches s1 in
  hook p2 s2 = (Raise (AlreadyHookedError p2), s2) ∧
  code (AlreadyHookedError p2) = Some "AlreadyHooked" ∧
  dict_get k (originals (self s2)) = dict_get k (originals (self s1)) ∧
  hooked (self s2) = hooked (self s1).
Proof.
  intros Hres1 Hres2 Hhook Hpatches s2.
  destruct (patches_frame patches s1 Hpatches) as [Hself Hmods].
  fold s2 in Hself. fold s2 in Hmods.
  assert (sys_modules (env s1) = sys_modules (env s) ∧
          is_Some (dict_get k (originals (self s1)))) as [Hmods1 [v Hv]].
  { destruct s as [[orig hk] [mods gl h out flag]]. simpl in *.
    destruct k as [m chain].
    destruct (dict_get (m, chain) orig) as [v|] eqn:Hget.
    { erewrite hook_AlreadyHooked in Hhook; [|done..]. done. }
    destruct (_get_attr h m chain) as [v|e] eqn:Hattr.
    - rewrite (hook_Ok _ _ _ _ _ _ _ _ _ _ _ Hres1 Hget Hattr) in Hhook.
      injection Hhook as <-. simpl. split; [done|].
      rewrite dict_get_set_eq. eauto.
    - exfalso. revert Hhook. unfold hook. unfold_m. rewrite Hres1. simpl.
      unfold dict_mem. rewrite Hget. unfold_m. by rewrite Hattr. }
  rewrite Hself. split_and!; [|done..].
  eapply hook_AlreadyHooked; [by rewrite Hmods, Hmods1|by rewrite Hself].
Qed.

Lemma second_hook_raises_AlreadyHooked_witness :
  let s2 := run_all [DoPatchPrint "os.path.join" "hi"]
              (hook "os.path.join" ex_state).2 in
  hook "posixpath.join" s2 = (Raise (AlreadyHookedError "posixpath.join"), s2) ∧
  code (AlreadyHookedError "posixpath.join") = Some "AlreadyHooked" ∧
  dict_get (2%positive, ["join"]) (originals (self s2))
  = dict_get (2%positive, ["join"])
      (originals (self (hook "os.path.join" ex_state).2)) ∧
  hooked (self s2) = hooked (self (hook "os.path.join" ex_state).2).
Proof.
  apply (second_hook_raises_AlreadyHooked ex_state _ "os.path.join"
           "posixpath.join" (2%positive, ["join"])).
  - vm_compute. reflexivity.
  - vm_compute. reflexivity.
  - reflexivity.
  - repeat constructor.
Defined.

(** C1, as the code has it.  [unhook] raises [NotPatchedError] when the
    store is empty and changes nothing; when the store is not empty it
    returns normally with every record and every marker cleared, and it
    leaves the heap as it was: nothing is written back. *)
Theorem unhook_clears_without_writing_back (s : state) :
  match originals (self s) with
  | [] =>
      unhook s = (Raise (NotPatchedError "No hooks to remove."), s) ∧
      code (NotPatchedError "No hooks to remove.") = Some "NotPatched"
  | _ :: _ =>
      ∃ s', unhook s = (Ok tt, s') ∧
        originals (self s') = [] ∧
        hooked (self s') = ∅ ∧
        heap (env s') = heap (env s)
  end.
Proof.
  destruct s as [[orig hk] [mods gl h out flag]]. simpl.
  destruct orig as [|kv orig]; [done|].
  destruct (unhook_nonempty kv orig hk mods gl h out flag) as [out' ->]. eauto.
Qed.

(** After [hook] and [patch_print] on ["os.path.join"] the store holds one
    record, whose original is the function at location 3; [unhook] returns
    normally, and the live attribute is still the wrapper at location 5. *)
Lemma unhook_leaves_patched_attribute :
  let s := (run [DoHook "os.path.join"; DoPatchPrint "os.path.join" "hi"] ex_state).2 in
  originals (self s) = [((2%positive, ["join"]), 3%positive)] ∧
  (unhook s).1 = Ok tt ∧
  _get_attr (heap (env (unhook s).2)) 2%positive ["join"] = Ok 5%positive ∧
  _get_attr (heap (env (unhook s).2)) 2%positive ["join"] ≠ Ok 3%positive.
Proof. vm_compute. split_and!; [reflexivity..|discriminate]. Qed.

(** ** Walks through the heap *)

Section heap_facts.
Implicit Types (h : gmap loc object) (x parent w : loc) (a b : string).
Implicit Types (path prefix : list string).

Lemma setattr_Ok_inv h parent a v h' :
  setattr h parent a v = Ok h' →
  ∃ o, h !! parent = Some o ∧
    h' = <[parent := Object (obj_name o) (<[a := v]> (obj_attrs o)) (obj_call o)]> h.
Proof. unfold setattr. destruct (h !! parent); naive_solver. Qed.


Lemma getattr_setattr_eq h parent a v h' :
  setattr h parent a v = Ok h' → getattr h' parent a = Ok v.
Proof.
  intros (o & Ho & ->)%setattr_Ok_inv. unfold getattr.
  rewrite lookup_insert_eq. simpl. by rewrite lookup_insert_eq.
Qed.

Lemma getattr_setattr_ne h parent a v h' x b :
  setattr h parent a v = Ok h' → (x, b) ≠ (parent, a) →
  getattr h' x b = getattr h x b.
Proof.
  intros (o & Ho & ->)%setattr_Ok_inv Hne. unfold getattr.
  destruct (decide (x = parent)) as [->|Hx].
  - rewrite lookup_insert_eq, Ho. simpl.
    rewrite lookup_insert_ne; [done|congruence].
  - by rewrite lookup_insert_ne.
Qed.


Lemma obj_call_setattr h parent a v h' x :
  setattr h parent a v = Ok h' →
  obj_call <$> (h' !! x) = obj_call <$> (h !! x).
Proof.
  intros (o & Ho & ->)%setattr_Ok_inv.
  destruct (decide (x = parent)) as [->|Hx].
  - by rewrite lookup_insert_eq, Ho.
  - by rewrite lookup_insert_ne.
Qed.




Lemma fresh_lookup h : h !! fresh (dom h) = None.
Proof. apply not_elem_of_dom. apply is_fresh. Qed.


Lemma _set_attr_snoc h x prefix a v :
  _set_attr h x (prefix ++ [a]) v
  = match _get_attr h x prefix with
    | Ok parent => setattr h parent a v
    | Raise e => Raise e
    end.
Proof. unfold _set_attr. by rewrite removelast_last, last_snoc. Qed.

Lemma _set_attr_nil h x v : _set_attr h x [] v = Raise IndexError.
Proof. reflexivity. Qed.

(** A chain on which [_set_attr] can succeed has a last element. *)
Lemma _set_attr_Ok_inv h x chain v h' :
  _set_attr h x chain v = Ok h' →
  ∃ prefix a parent, chain = (prefix ++ [a])%list ∧
    _get_attr h x prefix = Ok parent ∧ setattr h parent a v = Ok h'.
Proof.
  destruct (last chain) as [a|] eqn:Hlast.
  - apply last_Some in Hlast as [prefix ->]. rewrite _set_attr_snoc.
    destruct (_get_attr h x prefix) as [parent|] eqn:Hwalk; [|done].
    intros Hset. by exists prefix, a, parent.
  - apply last_None in Hlast as ->. done.
Qed.



(** The end of a walk of at least one step is the value of some slot. *)
Lemma walk_end h x b rest parent :
  _get_attr h x (b :: rest) = Ok parent → ∃ y c, getattr h y c = Ok parent.
Proof.
  revert x b. induction rest as [|c rest IH]; intros x b; simpl.
  - destruct (getattr h x b) eqn:Hget; [|done]. intros [= ->]. eauto.
  - destruct (getattr h x b) as [x'|]; [|done]. apply IH.
Qed.
End heap_facts.

(** ** Hook, patch, restore *)

Section roundtrip.
Implicit Types (h : gmap loc object) (m parent : loc) (a : string).
Implicit Types (prefix chain : list string).




Variables (p : string) (m : loc) (prefix : list string) (a : string).
Variables (parent pre : loc) (mods : gmap string loc) (h0 : gmap loc object).
Hypothesis Hres : _resolve_target mods p = Ok (m, (prefix ++ [a])%list).


End roundtrip.



(** A path that resolves to a module itself: [hook] returns normally, and
    [restore] raises [IndexError], so the sequence does not complete. *)
Lemma restore_of_module_path_raises :
  _resolve_target (sys_modules (env ex_state)) "os.path" = Ok (2%positive, []) ∧
  (hook "os.path" ex_state).1 = Ok tt ∧
  (run [DoHook "os.path"; DoRestore "os.path"] ex_state).1 = Raise IndexError ∧
  "os.path" ∈ hooked (self (run [DoHook "os.path"; DoRestore "os.path"] ex_state).2).
Proof.
  split_and!; [vm_compute; reflexivity..|].
  apply (bool_decide_unpack _). vm_compute. exact I.
Qed.


(** ** The print wrapper *)

Section wrapper.
Implicit Types (h : gmap loc object) (x parent w : loc) (a b : string).

Lemma closed_lookup h x o a v :
  closed h → h !! x = Some o → obj_attrs o !! a = Some v → is_Some (h !! v).
Proof. intros Hc Hx Ha. exact (Hc x o Hx a v Ha). Qed.

(** In a closed heap nothing refers to a new object, and the new object
    starts without attributes. *)
Lemma alloc_leaf h o :
  closed h → obj_attrs o = ∅ →
  let w := fresh (dom h) in
  let h1 := <[w := o]> h in
  (∀ b, getattr h1 w b = Raise AttributeError) ∧
  (∀ x b, getattr h1 x b ≠ Ok w).
Proof.
  intros Hc Hattrs w h1. pose proof (fresh_lookup h) as Hfresh. fold w in Hfresh.
  split.
  - intros b. unfold getattr, h1. rewrite lookup_insert_eq, Hattrs.
    by rewrite lookup_empty.
  - intros x b. unfold getattr, h1.
    destruct (decide (x = w)) as [->|Hx].
    + rewrite lookup_insert_eq, Hattrs. by rewrite lookup_empty.
    + rewrite lookup_insert_ne; [|done].
      destruct (h !! x) as [ox|] eqn:Hox; [|done].
      destruct (obj_attrs ox !! b) as [v|] eqn:Hv; [|done].
      intros [= ->]. destruct (closed_lookup h x ox b w Hc Hox Hv) as [? Hw].
      congruence.
Qed.

(** After a leaf that nothing refers to has been assigned to a slot, a
    successful read of the chain finds that leaf. *)
Lemma leaf_read h w parent a h' :
  (∀ b, getattr h w b = Raise AttributeError) →
  (∀ x b, getattr h x b ≠ Ok w) →
  setattr h parent a w = Ok h' →
  ∀ (walked : list string) x live,
    _get_attr h x walked = Ok parent →
    _get_attr h' x (walked ++ [a]) = Ok live →
    live = w.
Proof.
  intros Hleaf Hfree Hset walked.
  induction walked as [|b rest IH]; intros x live.
  - simpl. intros [= ->]. rewrite (getattr_setattr_eq _ _ _ _ _ Hset). congruence.
  - intros Hwalk. pose proof Hwalk as Hend. apply walk_end in Hend as (y & c & Hyc).
    simpl in Hwalk. destruct (getattr h x b) as [x'|] eqn:Hget; [|done].
    simpl. destruct (decide ((x, b) = (parent, a))) as [[= -> ->]|Hne].
    + rewrite (getattr_setattr_eq _ _ _ _ _ Hset).
      assert (w ≠ parent) as Hw by (intros ->; by eapply Hfree).
      destruct (rest ++ [a])%list as [|c' rest'] eqn:Hrest.
      { by destruct rest. }
      simpl. rewrite (getattr_setattr_ne _ _ _ _ _ w c' Hset); [|congruence].
      by rewrite Hleaf.
    + rewrite (getattr_setattr_ne _ _ _ _ _ _ _ Hset Hne), Hget. by apply IH.
Qed.
End wrapper.

(** C4.  In a process whose heap is closed, let [patch_print] return
    normally on a path whose key has a record, and let the live attribute be
    read afterwards.  Calling it writes the message, then whatever the stored
    original writes for the same arguments, and returns or raises what the
    stored original does (called one frame deeper); the records are those
    from before the patch. *)
Theorem print_wrapper_prints_then_delegates
    (builtin_sem : nat → list loc → list (string * loc) → outcome)
    (user_sem : nat → gmap string loc → list loc → list (string * loc) → outcome)
    (s s' : state) (p msg : string) (m : loc) (chain : list string)
    (original live : loc) (args : list loc) (kwargs : list (string * loc))
    (depth : nat) :
  closed (heap (env s)) →
  _resolve_target (sys_modules (env s)) p = Ok (m, chain) →
  dict_get (m, chain) (originals (self s)) = Some original →
  patch_print p msg s = (Ok tt, s') →
  _get_attr (heap (env s')) m chain = Ok live →
  call builtin_sem user_sem (S depth) (heap (env s')) live args kwargs
  = ((msg +:+ newline)
       :: (call builtin_sem user_sem depth (heap (env s')) original args kwargs).1,
     (call builtin_sem user_sem depth (heap (env s')) original args kwargs).2) ∧
  originals (self s') = originals (self s) ∧
  dict_get (m, chain) (originals (self s')) = Some original.
Proof.
  destruct s as [[orig hk] [mods gl h out flag]]. simpl.
  intros Hclosed Hres Hget Hpatch Hlive.
  rewrite (patch_print_found _ msg _ _ _ _ _ _ _ _ _ _ Hres Hget) in Hpatch.
  set (w := fresh (dom h)) in *.
  set (o := Object "wrapped" ∅ (Function (WrappedCode msg original) gl)) in *.
  destruct (_set_attr (<[w := o]> h) m chain w) as [h2|] eqn:Hset; [|done].
  injection Hpatch as <-. simpl in *. split; [|done].
  apply _set_attr_Ok_inv in Hset as (prefix & a & parent & -> & Hwalk & Hset).
  destruct (alloc_leaf h o Hclosed eq_refl) as [Hleaf Hfree]. fold w in Hleaf, Hfree.
  assert (live = w) as ->
    by exact (leaf_read _ w parent a h2 Hleaf Hfree Hset prefix m live Hwalk Hlive).
  pose proof (obj_call_setattr _ _ _ _ _ w Hset) as Hcall.
  rewrite lookup_insert_eq in Hcall. simpl in Hcall.
  destruct (h2 !! w) as [ow|] eqn:How; [|done].
  injection Hcall as Hcall.
  cbn [call]. rewrite ?How, Hcall.
  by destruct (call builtin_sem user_sem depth h2 original args kwargs).
Qed.

Lemma print_wrapper_prints_then_delegates_witness :
  let s := (hook "os.path.join" ex_state).2 in
  let s' := (patch_print "os.path.join" "hi" s).2 in
  call ex_builtin_sem ex_user_sem 2 (heap (env s')) 5%positive [1%positive] []
  = (("hi" +:+ newline)
       :: (call ex_builtin_sem ex_user_sem 1 (heap (env s')) 3%positive
             [1%positive] []).1,
     (call ex_builtin_sem ex_user_sem 1 (heap (env s')) 3%positive
        [1%positive] []).2) ∧
  originals (self s') = originals (self s) ∧
  dict_get (2%positive, ["join"]) (originals (self s')) = Some 3%positive.
Proof.
  apply (print_wrapper_prints_then_delegates ex_builtin_sem ex_user_sem
           (hook "os.path.join" ex_state).2 _ "os.path.join" "hi"
           2%positive ["join"] 3%positive 5%positive).
  - apply (bool_decide_unpack _). vm_compute. exact I.
  - vm_compute. reflexivity.
  - vm_compute. reflexivity.
  - reflexivity.
  - vm_compute. reflexivity.
Defined.

(** ** Paths that resolve to a module *)

(** C10, as the code has it.  When a path resolves to a module itself and
    the key has no record, [hook] returns normally and stores the module
    object as the original.  In every later state in which that record is
    still in place, [restore], [patch_print] and [patch_function] with a
    Python function raise [IndexError], which carries no [HookManagerError]
    code, while [unhook], which writes nothing back, returns normally. *)
Theorem module_path_hook_then_IndexError (s : state) (p : string) (m : loc) :
  _resolve_target (sys_modules (env s)) p = Ok (m, []) →
  dict_get (m, []) (originals (self s)) = None →
  ∃ s1, hook p s = (Ok tt, s1) ∧
    dict_get (m, []) (originals (self s1)) = Some m ∧
    sys_modules (env s1) = sys_modules (env s) ∧
    code IndexError = None ∧
    ∀ s2, sys_modules (env s2) = sys_modules (env s1) →
      is_Some (dict_get (m, []) (originals (self s2))) →
      (restore p s2).1 = Raise IndexError ∧
      (∀ msg, (patch_print p msg s2).1 = Raise IndexError) ∧
      (∀ func parts, function_parts (heap (env s2)) func = Ok parts →
         (patch_function p func s2).1 = Raise IndexError) ∧
      (unhook s2).1 = Ok tt.
Proof.
  destruct s as [[orig hk] [mods gl h out flag]]. simpl. intros Hres Hget.
  eexists. split; [by apply hook_Ok|]. simpl.
  split_and!; [apply dict_get_set_eq|done|done|].
  intros [[orig2 hk2] [mods2 gl2 h2 out2 flag2]]. simpl. intros -> [v Hv].
  split_and!.
  - by rewrite (restore_found _ _ _ _ _ _ _ _ _ _ _ Hres Hv).
  - intros msg. by rewrite (patch_print_found _ msg _ _ _ _ _ _ _ _ _ _ Hres Hv).
  - intros func [[name b] g] Hfunc.
    by destruct (patch_function_found p func m [] v name b g orig2 hk2 mods gl2 h2
                   out2 flag2 Hres Hv Hfunc) as (g' & out1 & ->).
  - destruct orig2 as [|kv orig2]; [done|].
    by destruct (unhook_nonempty kv orig2 hk2 mods gl2 h2 out2 flag2) as [out' ->].
Qed.

Lemma module_path_hook_then_IndexError_witness :
  ∃ s1, hook "os.path" ex_state = (Ok tt, s1) ∧
    dict_get (2%positive, []) (originals (self s1)) = Some 2%positive ∧
    sys_modules (env s1) = sys_modules (env ex_state) ∧
    code IndexError = None ∧
    ∀ s2, sys_modules (env s2) = sys_modules (env s1) →
      is_Some (dict_get (2%positive, []) (originals (self s2))) →
      (restore "os.path" s2).1 = Raise IndexError ∧
      (∀ msg, (patch_print "os.path" msg s2).1 = Raise IndexError) ∧
      (∀ func parts, function_parts (heap (env s2)) func = Ok parts →
         (patch_function "os.path" func s2).1 = Raise IndexError) ∧
      (unhook s2).1 = Ok tt.
Proof.
  apply (module_path_hook_then_IndexError ex_state "os.path" 2%positive).
  - vm_compute. reflexivity.
  - reflexivity.
Defined.

(** After [hook] on a path that resolves to a module itself, [unhook]
    returns normally: it reaches no [_set_attr] and raises no [IndexError]. *)
Lemma unhook_of_module_path_returns :
  _resolve_target (sys_modules (env ex_state)) "os.path" = Ok (2%positive, []) ∧
  (hook "os.path" ex_state).1 = Ok tt ∧
  originals (self (hook "os.path" ex_state).2)
  = [((2%positive, []), 2%positive)] ∧
  (unhook (hook "os.path" ex_state).2).1 = Ok tt ∧
  (unhook (hook "os.path" ex_state).2).1 ≠ Raise IndexError.
Proof. vm_compute. split_and!; [reflexivity..|discriminate]. Qed.

(** ** The hooked set and the records *)

Section invariant.
Implicit Types (s : state) (p q : string) (o : op).

(** When the path does not resolve, every call on it raises what
    [_resolve_target] raises and changes nothing. *)
Lemma resolve_Raise p e s :
  _resolve_target (sys_modules (env s)) p = Raise e →
  hook p s = (Raise e, s) ∧
  restore p s = (Raise e, s) ∧
  unhook_target p s = (Raise e, s).
Proof.
  intros Hres. unfold hook, restore, unhook_target. unfold_m.
  by rewrite Hres.
Qed.

Lemma hooked_have_records_ext s s' :
  sys_modules (env s') = sys_modules (env s) →
  self s' = self s →
  hooked_have_records s → hooked_have_records s'.
Proof.
  unfold hooked_have_records, has_record. by intros -> ->.
Qed.

(** Removing the record of [p] and the marker of [p], when no other
    hooked path resolves to the same key. *)
Lemma hooked_have_records_remove p m chain orig hk hk' w w' :
  sys_modules w' = sys_modules w →
  _resolve_target (sys_modules w) p = Ok (m, chain) →
  hk' = hk ∖ {[p]} →
  sole_path (mkState (mkHookManager orig hk) w) p →
  hooked_have_records (mkState (mkHookManager orig hk) w) →
  hooked_have_records
    (mkState (mkHookManager (dict_remove (m, chain) orig) hk') w').
Proof.
  intros Hmods Hres -> Hsole Hinv q [Hq Hqp]%elem_of_difference.
  assert (q ≠ p) as Hne by (intros ->; apply Hqp; by apply elem_of_singleton).
  specialize (Hinv q Hq). specialize (Hsole q Hq Hne).
  unfold has_record, different_key in *. simpl in *. rewrite Hmods.
  rewrite Hres in Hsole.
  destruct (_resolve_target (sys_modules w) q) as [k|]; [|done].
  by rewrite dict_get_remove_ne.
Qed.

(** One call, made in a state that satisfies its guard. *)
Lemma guard_step o s :
  hooked_have_records s → guard o s → hooked_have_records (exec o s).2.
Proof.
  intros Hinv Hguard. destruct o as [p|p msg|p func|p|p|]; simpl.
  - destruct (_resolve_target (sys_modules (env s)) p) as [[m chain]|e] eqn:Hres.
    2:{ by destruct (resolve_Raise p e s Hres) as (-> & _). }
    destruct (dict_get (m, chain) (originals (self s))) as [v|] eqn:Hget.
    { by rewrite (hook_AlreadyHooked p _ v s Hres Hget). }
    destruct (hook p s) as [[[]|e] s'] eqn:Hhook.
    2:{ pose proof (hook_Raise p s e) as Hs. rewrite Hhook in Hs.
        simpl in *. by rewrite Hs. }
    destruct s as [[orig hk] [mods gl h out flag]]. simpl in *.
    destruct (_get_attr h m chain) as [v|e] eqn:Hattr.
    2:{ exfalso. revert Hhook. unfold hook. unfold_m. rewrite Hres. simpl.
        unfold dict_mem. rewrite Hget. unfold_m. by rewrite Hattr. }
    rewrite (hook_Ok _ _ _ _ _ _ _ _ _ _ _ Hres Hget Hattr) in Hhook.
    injection Hhook as <-.
    intros q Hq. unfold has_record. simpl in *.
    apply elem_of_union in Hq as [->%elem_of_singleton|Hq].
    + rewrite Hres, dict_get_set_eq. eauto.
    + specialize (Hinv q Hq). unfold has_record in Hinv. simpl in Hinv.
      destruct (_resolve_target mods q) as [k|]; [|done].
      destruct (decide ((m, chain) = k)) as [<-|Hk].
      * rewrite dict_get_set_eq. eauto.
      * by rewrite dict_get_set_ne.
  - destruct (patch_frame (DoPatchPrint p msg) s I) as [Hself Hmods].
    by eapply hooked_have_records_ext.
  - destruct (patch_frame (DoPatchFunction p func) s I) as [Hself Hmods].
    by eapply hooked_have_records_ext.
  - destruct Hguard as [Hsole Hwrites].
    destruct (_resolve_target (sys_modules (env s)) p) as [[m chain]|e] eqn:Hres.
    2:{ by destruct (resolve_Raise p e s Hres) as (_ & -> & _). }
    destruct (dict_get (m, chain) (originals (self s))) as [v|] eqn:Hget.
    2:{ by rewrite (restore_NotHooked p _ s Hres Hget). }
    unfold writes_back in Hwrites. rewrite Hres, Hget in Hwrites.
    destruct s as [[orig hk] [mods gl h out flag]]. simpl in *.
    rewrite (restore_found _ _ _ _ _ _ _ _ _ _ _ Hres Hget).
    destruct (_set_attr h m chain v) as [h'|]; [|done]. simpl.
    by eapply hooked_have_records_remove.
  - simpl in Hguard.
    destruct (_resolve_target (sys_modules (env s)) p) as [[m chain]|e] eqn:Hres.
    2:{ by destruct (resolve_Raise p e s Hres) as (_ & _ & ->). }
    destruct (dict_get (m, chain) (originals (self s))) as [v|] eqn:Hget.
    2:{ by rewrite (unhook_target_NotHooked p _ s Hres Hget). }
    destruct s as [[orig hk] [mods gl h out flag]]. simpl in *.
    rewrite (unhook_target_found _ _ _ _ _ _ _ _ _ _ _ Hres Hget). simpl.
    by eapply hooked_have_records_remove.
  - destruct s as [[orig hk] [mods gl h out flag]].
    destruct orig as [|kv orig]; [done|].
    destruct (unhook_nonempty kv orig hk mods gl h out flag) as [out' ->].
    intros q Hq. simpl in Hq. by apply not_elem_of_empty in Hq.
Qed.
End invariant.

(** A new manager has no marker. *)
Lemma hooked_have_records_init (w : world) :
  hooked_have_records (mkState __init__ w).
Proof. intros p Hp. simpl in Hp. by apply not_elem_of_empty in Hp. Qed.

(** C9, as the code has it.  Let every path in the hooked set resolve to a
    key that has a record.  This still holds after any sequence of [hook],
    [patch_print], [patch_function], [restore], [unhook_target] and [unhook]
    calls, whether they raise or not, provided that each [restore] and
    [unhook_target] is made on a path that is the only hooked path resolving
    to its key and that the write-back of each [restore] does not raise. *)
Theorem hooked_have_records_preserved (ops : list op) (s : state) :
  hooked_have_records s →
  guarded ops s →
  hooked_have_records (run_all ops s).
Proof.
  revert s. induction ops as [|o rest IH]; intros s Hinv Hguarded; [done|].
  destruct Hguarded as [Hguard Hrest]. simpl.
  apply IH; [by apply guard_step|done].
Qed.

Lemma hooked_have_records_preserved_witness :
  hooked_have_records
    (run_all [DoHook "os.path.join"; DoPatchPrint "os.path.join" "hi";
              DoHook "os.getcwd"; DoHook "posixpath.join";
              DoRestore "os.path.join"; DoUnhookTarget "os.getcwd";
              DoRestore "os.getcwd"; DoUnhook] ex_state).
Proof.
  apply (hooked_have_records_preserved _ ex_state).
  - apply (bool_decide_unpack _). vm_compute. exact I.
  - apply (bool_decide_unpack _). vm_compute. exact I.
Defined.

(** The same key under two names: after [hook] through one name and
    [restore] through the other, with no [unhook_target] at all, the first
    name is still in the hooked set and its key has no record. *)
Lemma restore_through_alias_leaves_marker :
  let s := run_all [DoHook "os.path.join"; DoRestore "posixpath.join"] ex_state in
  (hook "os.path.join" ex_state).1 = Ok tt ∧
  (restore "posixpath.join" (hook "os.path.join" ex_state).2).1 = Ok tt ∧
  "os.path.join" ∈ hooked (self s) ∧
  _resolve_target (sys_modules (env s)) "os.path.join" = Ok (2%positive, ["join"]) ∧
  dict_get (2%positive, ["join"]) (originals (self s)) = None ∧
  ¬ hooked_have_records s.
Proof.
  split_and!; [vm_compute; reflexivity..| | | |].
  - apply (bool_decide_unpack _). vm_compute. exact I.
  - vm_compute. reflexivity.
  - vm_compute. reflexivity.
  - apply (bool_decide_unpack _). vm_compute. exact I.
Qed.

(** * Further properties *)

(** ** Splitting, joining and resolution *)

Lemma str_split_nonempty sep s : str_split sep s ≠ [].
Proof.
  destruct s as [|c rest]; simpl; [done|].
  case_decide; [done|]. by destruct (str_split sep rest).
Qed.

Lemma str_join_cons sep p q ps :
  str_join sep (p :: q :: ps) = p +:+ sep +:+ str_join sep (q :: ps).
Proof. reflexivity. Qed.

(** Joining what [split] returns gives the string back. *)
Lemma str_join_split s : str_join "." (str_split dot s) = s.
Proof.
  induction s as [|c rest IH]; [done|]. simpl.
  pose proof (str_split_nonempty dot rest) as Hne.
  destruct (str_split dot rest) as [|p ps]; [done|].
  case_decide as Hc.
  - subst c. rewrite str_join_cons, IH. reflexivity.
  - destruct ps as [|q ps].
    + simpl in *. by rewrite IH.
    + rewrite str_join_cons. rewrite str_join_cons in IH.
      rewrite <- IH. reflexivity.
Qed.

Lemma append_assoc (s1 s2 s3 : string) : (s1 +:+ s2) +:+ s3 = s1 +:+ (s2 +:+ s3).
Proof.
  induction s1 as [|c s1 IH]; [done|].
  change (String c ((s1 +:+ s2) +:+ s3) = String c (s1 +:+ (s2 +:+ s3))).
  by rewrite IH.
Qed.

Lemma str_join_app sep (l1 l2 : list string) :
  l1 ≠ [] → l2 ≠ [] →
  str_join sep (l1 ++ l2) = str_join sep l1 +:+ sep +:+ str_join sep l2.
Proof.
  intros Hl1 Hl2. induction l1 as [|p [|q l1] IH]; [done| |].
  - destruct l2; [done|]. reflexivity.
  - change ((p :: q :: l1) ++ l2)%list with (p :: q :: (l1 ++ l2))%list.
    rewrite !str_join_cons.
    change (q :: (l1 ++ l2))%list with ((q :: l1) ++ l2)%list.
    rewrite IH; [|done]. by rewrite !append_assoc.
Qed.

(** What the loop returned, read backwards. *)
Lemma _resolve_loop_Ok_inv mods target_path parts (n : nat) m chain :
  _resolve_loop mods target_path parts n = Ok (m, chain) →
  ∃ i, 1 ≤ i ≤ n ∧
    import_module mods (str_join "." (take i parts)) = Ok m ∧
    chain = drop i parts ∧
    ∀ j, i < j ≤ n →
      ∃ msg, import_module mods (str_join "." (take j parts))
             = Raise (ModuleNotFoundError msg).
Proof.
  induction n as [|n IH]; [done|]. cbn [_resolve_loop].
  destruct (import_module mods (str_join "." (take (S n) parts)))
    as [m'|e] eqn:Himp.
  - intros [= -> <-]. exists (S n). split_and!; [lia|lia|done|done|].
    intros j Hj. lia.
  - destruct e; try done. intros (i & Hi & Hm & Hchain & Hlater)%IH.
    exists i. split_and!; [lia|lia|done|done|].
    intros j Hj. destruct (decide (j = S n)) as [->|Hne]; [eauto|].
    apply Hlater. lia.
Qed.



(** X2.  What a successful resolution returns: the module is the one that
    the table of modules holds for a non-empty leading run of the parts, the
    chain is the rest of the parts, no longer run is in the table, and the
    module name and the chain, joined by dots, spell the path. *)
Theorem resolve_Ok_spells_path
    (mods : gmap string loc) (target_path : string) (m : loc) (chain : list string) :
  _resolve_target mods target_path = Ok (m, chain) →
  let parts := str_split dot target_path in
  ∃ i, 1 ≤ i ≤ length parts ∧
    chain = drop i parts ∧
    mods !! str_join "." (take i parts) = Some m ∧
    (∀ j, i < j ≤ length parts → mods !! str_join "." (take j parts) = None) ∧
    target_path
    = match chain with
      | [] => str_join "." (take i parts)
      | _ :: _ => str_join "." (take i parts) +:+ "." +:+ str_join "." chain
      end.
Proof.
  intros Hres parts. unfold _resolve_target in Hres. fold parts in Hres.
  apply _resolve_loop_Ok_inv in Hres as (i & Hi & Himp & -> & Hlater).
  exists i. split_and!; [lia|lia|done| | |].
  - by apply import_module_Ok_inv in Himp as (_ & _ & _ & _ & ?).
  - intros j Hj. destruct (Hlater j Hj) as [msg Hmsg].
    unfold import_module in Hmsg.
    destruct (startswith "." _); [done|]. case_decide; [done|].
    by destruct (mods !! _).
  - pose proof (str_join_split target_path) as Hjoin. fold parts in Hjoin.
    rewrite <- (take_drop i parts) in Hjoin at 1.
    destruct (drop i parts) as [|q qs] eqn:Hdrop.
    + by rewrite app_nil_r in Hjoin.
    + rewrite str_join_app in Hjoin; [done| |done].
      intros Htake. apply (f_equal length) in Htake.
      rewrite length_take in Htake. simpl in Htake. lia.
Qed.

Lemma resolve_Ok_spells_path_witness :
  let parts := str_split dot "os.path.join" in
  ∃ i, 1 ≤ i ≤ length parts ∧
    ["join"] = drop i parts ∧
    ex_modules !! str_join "." (take i parts) = Some 2%positive ∧
    (∀ j, i < j ≤ length parts → ex_modules !! str_join "." (take j parts) = None) ∧
    "os.path.join" = str_join "." (take i parts) +:+ "." +:+ str_join "." ["join"].
Proof.
  apply (resolve_Ok_spells_path ex_modules "os.path.join" 2%positive ["join"]).
  vm_compute. reflexivity.
Defined.

(** ** Attribute access *)

Lemma getattr_Raise_inv h x a e : getattr h x a = Raise e → e = AttributeError.
Proof.
  unfold getattr. destruct (h !! x) as [o|]; [|congruence].
  destruct (obj_attrs o !! a); congruence.
Qed.


Lemma _get_attr_Raise_inv h x path e :
  _get_attr h x path = Raise e → e = AttributeError.
Proof.
  revert x. induction path as [|a rest IH]; intros x; simpl; [done|].
  destruct (getattr h x a) as [x'|e'] eqn:Hget; [apply IH|].
  intros [= <-]. by eapply getattr_Raise_inv.
Qed.






(** ** hook and restore, read backwards *)

Section inversions.
Implicit Types (mods gl : gmap string loc) (h : gmap loc object).
Implicit Types (out : list string) (flag : bool).
Implicit Types (orig : list (key * loc)) (hk : gset string).
Implicit Types (p : string) (m : loc) (chain : list string).

Lemma hook_inv p orig hk mods gl h out flag r s' :
  hook p (mkState (mkHookManager orig hk) (mkWorld mods gl h out flag)) = (r, s') →
  (∃ m chain v,
     _resolve_target mods p = Ok (m, chain) ∧
     dict_get (m, chain) orig = None ∧
     _get_attr h m chain = Ok v ∧
     r = Ok tt ∧
     s' = mkState (mkHookManager (dict_set (m, chain) v orig) ({[p]} ∪ hk))
            (mkWorld mods gl h
               (out ++ [("[HooksNotice] " +:+ ("Hooked " +:+ p)) +:+ newline])
               flag)) ∨
  (∃ e, r = Raise e ∧
     s' = mkState (mkHookManager orig hk) (mkWorld mods gl h out flag) ∧
     (_resolve_target mods p = Raise e ∨
      (e = AlreadyHookedError p ∧
       ∃ k v, _resolve_target mods p = Ok k ∧ dict_get k orig = Some v) ∨
      (e = AttributeError ∧
       ∃ m chain, _resolve_target mods p = Ok (m, chain) ∧
         dict_get (m, chain) orig = None ∧
         _get_attr h m chain = Raise AttributeError))).
Proof.
  destruct (_resolve_target mods p) as [[m chain]|e] eqn:Hres.
  2:{ destruct (resolve_Raise p e
                  (mkState (mkHookManager orig hk) (mkWorld mods gl h out flag)) Hres)
        as (-> & _).
      intros [= <- <-]. right. exists e. eauto. }
  destruct (dict_get (m, chain) orig) as [v|] eqn:Hget.
  { rewrite (hook_AlreadyHooked p (m, chain) v
              (mkState (mkHookManager orig hk) (mkWorld mods gl h out flag)) Hres Hget).
    intros [= <- <-]. right. eexists. split_and!; [done|done|].
    right. left. eauto. }
  destruct (_get_attr h m chain) as [v|e] eqn:Hattr.
  - rewrite (hook_Ok _ _ _ _ _ _ _ _ _ _ _ Hres Hget Hattr).
    intros [= <- <-]. left. exists m, chain, v. done.
  - pose proof (_get_attr_Raise_inv _ _ _ _ Hattr) as ->.
    unfold hook. unfold_m. rewrite Hres. simpl. unfold dict_mem.
    rewrite Hget. unfold_m. rewrite Hattr.
    intros [= <- <-]. right. eexists. split_and!; [done|done|].
    right. right. split; [done|]. by exists m, chain.
Qed.

Lemma restore_inv p orig hk mods gl h out flag r s' :
  restore p (mkState (mkHookManager orig hk) (mkWorld mods gl h out flag)) = (r, s') →
  (∃ e, r = Raise e ∧
     s' = mkState (mkHookManager orig hk) (mkWorld mods gl h out flag) ∧
     (_resolve_target mods p = Raise e ∨
      (e = NotHookedError p ∧
       ∃ k, _resolve_target mods p = Ok k ∧ dict_get k orig = None))) ∨
  (∃ m chain v,
     _resolve_target mods p = Ok (m, chain) ∧
     dict_get (m, chain) orig = Some v ∧
     ((∃ h', _set_attr h m chain v = Ok h' ∧ r = Ok tt ∧
         s' = mkState (mkHookManager (dict_remove (m, chain) orig) (hk ∖ {[p]}))
                (mkWorld mods gl h'
                   (out ++ [("[HooksNotice] " +:+ ("Restored " +:+ p)) +:+ newline])
                   flag)) ∨
      (∃ e, _set_attr h m chain v = Raise e ∧ r = Raise e ∧
         s' = mkState (mkHookManager (dict_remove (m, chain) orig) hk)
                (mkWorld mods gl h out flag)))).
Proof.
  destruct (_resolve_target mods p) as [[m chain]|e] eqn:Hres.
  2:{ destruct (resolve_Raise p e
                  (mkState (mkHookManager orig hk) (mkWorld mods gl h out flag)) Hres)
        as (_ & -> & _).
      intros [= <- <-]. left. exists e. eauto. }
  destruct (dict_get (m, chain) orig) as [v|] eqn:Hget.
  2:{ rewrite (restore_NotHooked p (m, chain)
                (mkState (mkHookManager orig hk) (mkWorld mods gl h out flag)) Hres Hget).
      intros [= <- <-]. left. eexists. split_and!; [done|done|].
      right. eauto. }
  rewrite (restore_found _ _ _ _ _ _ _ _ _ _ _ Hres Hget). intros Heq.
  right. exists m, chain, v. split_and!; [done|done|].
  destruct (_set_attr h m chain v) as [h'|e] eqn:Hset;
    injection Heq as <- <-; [left|right]; eauto.
Qed.

Lemma unhook_target_inv p orig hk mods gl h out flag r s' :
  unhook_target p (mkState (mkHookManager orig hk) (mkWorld mods gl h out flag))
  = (r, s') →
  (∃ e, r = Raise e ∧
     s' = mkState (mkHookManager orig hk) (mkWorld mods gl h out flag) ∧
     (_resolve_target mods p = Raise e ∨
      (e = NotHookedError p ∧
       ∃ k, _resolve_target mods p = Ok k ∧ dict_get k orig = None))) ∨
  (∃ m chain v,
     _resolve_target mods p = Ok (m, chain) ∧
     dict_get (m, chain) orig = Some v ∧
     r = Ok tt ∧
     s' = mkState (mkHookManager (dict_remove (m, chain) orig) (hk ∖ {[p]}))
            (mkWorld mods gl h
               (out ++ [("[HooksNotice] " +:+
                         ("Unhooked " +:+ p +:+ " (function left modified)"))
                        +:+ newline])
               flag)).
Proof.
  destruct (_resolve_target mods p) as [[m chain]|e] eqn:Hres.
  2:{ destruct (resolve_Raise p e
                  (mkState (mkHookManager orig hk) (mkWorld mods gl h out flag)) Hres)
        as (_ & _ & ->).
      intros [= <- <-]. left. exists e. eauto. }
  destruct (dict_get (m, chain) orig) as [v|] eqn:Hget.
  2:{ rewrite (unhook_target_NotHooked p (m, chain)
                (mkState (mkHookManager orig hk) (mkWorld mods gl h out flag)) Hres Hget).
      intros [= <- <-]. left. eexists. split_and!; [done|done|].
      right. eauto. }
  rewrite (unhook_target_found _ _ _ _ _ _ _ _ _ _ _ Hres Hget).
  intros [= <- <-]. right. exists m, chain, v. done.
Qed.

Lemma dict_remove_fresh {K V} `{EqDecision K} (k : K) (d : list (K * V)) :
  dict_get k d = None → dict_remove k d = d.
Proof.
  unfold dict_remove. induction d as [|[k' v'] d IH]; [done|]. simpl.
  case_decide as Hk; [done|]. intros Hget.
  rewrite filter_cons. simpl. rewrite decide_True; [|congruence].
  by rewrite IH.
Qed.

End inversions.

(** X6.  What a [hook] that returns normally has done: the path resolved,
    the key had no record, and the record now holds the value that the live
    attribute had; every other record is as before, the path is added to the
    hooked set, the heap is untouched, and one notice is written. *)
Theorem hook_captures_live_value (s s' : state) (p : string) :
  hook p s = (Ok tt, s') →
  ∃ m chain v,
    _resolve_target (sys_modules (env s)) p = Ok (m, chain) ∧
    dict_get (m, chain) (originals (self s)) = None ∧
    _get_attr (heap (env s)) m chain = Ok v ∧
    dict_get (m, chain) (originals (self s')) = Some v ∧
    (∀ k, k ≠ (m, chain) →
       dict_get k (originals (self s')) = dict_get k (originals (self s))) ∧
    hooked (self s') = {[p]} ∪ hooked (self s) ∧
    heap (env s') = heap (env s) ∧
    stdout (env s')
    = (stdout (env s) ++ ["[HooksNotice] Hooked " +:+ p +:+ newline])%list ∧
    WrapperinitEnd (env s') = WrapperinitEnd (env s).
Proof.
  destruct s as [[orig hk] [mods gl h out flag]]. intros Hhook.
  apply hook_inv in Hhook
    as [(m & chain & v & Hres & Hget & Hattr & _ & ->)|(e & ? & _)]; [|done].
  exists m, chain, v. simpl. split_and!; try done.
  - apply dict_get_set_eq.
  - intros k Hk. by apply dict_get_set_ne.
Qed.

Lemma hook_captures_live_value_witness :
  ∃ m chain v,
    _resolve_target (sys_modules (env ex_state)) "os.getcwd" = Ok (m, chain) ∧
    dict_get (m, chain) (originals (self ex_state)) = None ∧
    _get_attr (heap (env ex_state)) m chain = Ok v ∧
    dict_get (m, chain) (originals (self (hook "os.getcwd" ex_state).2)) = Some v ∧
    (∀ k, k ≠ (m, chain) →
       dict_get k (originals (self (hook "os.getcwd" ex_state).2))
       = dict_get k (originals (self ex_state))) ∧
    hooked (self (hook "os.getcwd" ex_state).2)
    = {["os.getcwd"]} ∪ hooked (self ex_state) ∧
    heap (env (hook "os.getcwd" ex_state).2) = heap (env ex_state) ∧
    stdout (env (hook "os.getcwd" ex_state).2)
    = (stdout (env ex_state)
         ++ ["[HooksNotice] Hooked " +:+ "os.getcwd" +:+ newline])%list ∧
    WrapperinitEnd (env (hook "os.getcwd" ex_state).2)
    = WrapperinitEnd (env ex_state).
Proof.
  apply (hook_captures_live_value ex_state _ "os.getcwd"). reflexivity.
Defined.

(** X7.  A [hook] that raises has changed nothing, and what it raises is
    the exception of the resolution, [AlreadyHookedError] for a key that has
    a record, or [AttributeError] for a chain that the live objects do not
    have. *)
Theorem hook_raises_changes_nothing (s : state) (p : string) (e : exn) :
  (hook p s).1 = Raise e →
  (hook p s).2 = s ∧
  (_resolve_target (sys_modules (env s)) p = Raise e ∨
   (e = AlreadyHookedError p ∧
    ∃ k v, _resolve_target (sys_modules (env s)) p = Ok k ∧
      dict_get k (originals (self s)) = Some v) ∨
   (e = AttributeError ∧
    ∃ m chain, _resolve_target (sys_modules (env s)) p = Ok (m, chain) ∧
      dict_get (m, chain) (originals (self s)) = None ∧
      _get_attr (heap (env s)) m chain = Raise AttributeError)).
Proof.
  destruct s as [[orig hk] [mods gl h out flag]].
  destruct (hook p _) as [r s'] eqn:Hhook. simpl. intros ->.
  apply hook_inv in Hhook
    as [(m & chain & v & _ & _ & _ & ? & _)|(e' & [= <-] & -> & Hwhy)]; [done|].
  done.
Qed.

Lemma hook_raises_changes_nothing_witness :
  (hook "os.nothing" ex_state).2 = ex_state ∧
  (_resolve_target (sys_modules (env ex_state)) "os.nothing" = Raise AttributeError ∨
   (AttributeError = AlreadyHookedError "os.nothing" ∧
    ∃ k v, _resolve_target (sys_modules (env ex_state)) "os.nothing" = Ok k ∧
      dict_get k (originals (self ex_state)) = Some v) ∨
   (AttributeError = AttributeError ∧
    ∃ m chain,
      _resolve_target (sys_modules (env ex_state)) "os.nothing" = Ok (m, chain) ∧
      dict_get (m, chain) (originals (self ex_state)) = None ∧
      _get_attr (heap (env ex_state)) m chain = Raise AttributeError)).
Proof.
  apply (hook_raises_changes_nothing ex_state "os.nothing" AttributeError).
  vm_compute. reflexivity.
Defined.

(** X8.  [restore] is not all-or-nothing: when the record is found and the
    write-back raises, [restore] raises the same exception with the record
    already removed, while the marker, the heap and standard output are as
    they were. *)
Theorem restore_failed_write_back_loses_record
    (s : state) (p : string) (m : loc) (chain : list string) (v : loc) (e : exn) :
  _resolve_target (sys_modules (env s)) p = Ok (m, chain) →
  dict_get (m, chain) (originals (self s)) = Some v →
  _set_attr (heap (env s)) m chain v = Raise e →
  ∃ s', restore p s = (Raise e, s') ∧
    dict_get (m, chain) (originals (self s')) = None ∧
    hooked (self s') = hooked (self s) ∧
    env s' = env s.
Proof.
  destruct s as [[orig hk] [mods gl h out flag]]. simpl. intros Hres Hget Hset.
  rewrite (restore_found _ _ _ _ _ _ _ _ _ _ _ Hres Hget), Hset.
  eexists. split; [done|]. simpl. split_and!; [|done..].
  apply dict_get_remove_eq.
Qed.

Lemma restore_failed_write_back_loses_record_witness :
  let s := (hook "os.path" ex_state).2 in
  ∃ s', restore "os.path" s = (Raise IndexError, s') ∧
    dict_get (2%positive, []) (originals (self s')) = None ∧
    hooked (self s') = hooked (self s) ∧
    env s' = env s.
Proof.
  apply (restore_failed_write_back_loses_record _ "os.path" 2%positive []
           2%positive IndexError).
  - vm_compute. reflexivity.
  - reflexivity.
  - reflexivity.
Defined.



(** X10.  After a [restore] or an [unhook_target] that returned normally,
    the record of the path is gone: a second [restore] or [unhook_target] and
    both patches on the same path raise [NotHookedError] and change
    nothing. *)
Theorem second_restore_raises_NotHooked (s s' : state) (p : string) :
  restore p s = (Ok tt, s') ∨ unhook_target p s = (Ok tt, s') →
  restore p s' = (Raise (NotHookedError p), s') ∧
  unhook_target p s' = (Raise (NotHookedError p), s') ∧
  (∀ msg, patch_print p msg s' = (Raise (NotHookedError p), s')) ∧
  (∀ func, patch_function p func s' = (Raise (NotHookedError p), s')).
Proof.
  destruct s as [[orig hk] [mods gl h out flag]]. intros Hdone.
  assert (∃ k, _resolve_target (sys_modules (env s')) p = Ok k ∧
               dict_get k (originals (self s')) = None) as (k & Hres & Hget).
  { destruct Hdone as [Hdone|Hdone].
    - apply restore_inv in Hdone
        as [(e & ? & _)|(m & chain & v & Hres & _ & [(h' & _ & _ & ->)|(e & _ & ? & _)])];
        [done| |done].
      exists (m, chain). split; [done|]. apply dict_get_remove_eq.
    - apply unhook_target_inv in Hdone
        as [(e & ? & _)|(m & chain & v & Hres & _ & _ & ->)]; [done|].
      exists (m, chain). split; [done|]. apply dict_get_remove_eq. }
  split_and!; [ | | intros msg | intros func].
  - by eapply restore_NotHooked.
  - by eapply unhook_target_NotHooked.
  - by eapply patch_print_NotHooked.
  - by eapply patch_function_NotHooked.
Qed.

Lemma second_restore_raises_NotHooked_witness :
  let s := (hook "os.path.join" ex_state).2 in
  let s' := (restore "os.path.join" s).2 in
  restore "os.path.join" s' = (Raise (NotHookedError "os.path.join"), s') ∧
  unhook_target "os.path.join" s' = (Raise (NotHookedError "os.path.join"), s') ∧
  (∀ msg, patch_print "os.path.join" msg s'
          = (Raise (NotHookedError "os.path.join"), s')) ∧
  (∀ func, patch_function "os.path.join" func s'
           = (Raise (NotHookedError "os.path.join"), s')).
Proof.
  apply (second_restore_raises_NotHooked (hook "os.path.join" ex_state).2 _
           "os.path.join").
  left. reflexivity.
Defined.

(** ** The two patches *)

Section patches.
Implicit Types (mods gl : gmap string loc) (h : gmap loc object).
Implicit Types (out : list string) (flag : bool).
Implicit Types (orig : list (key * loc)) (hk : gset string).
Implicit Types (p : string) (m : loc) (chain : list string).

Lemma keeps_objects_refl h : keeps_objects h h.
Proof. intros x o Ho. eauto. Qed.

Lemma keeps_objects_trans h1 h2 h3 :
  keeps_objects h1 h2 → keeps_objects h2 h3 → keeps_objects h1 h3.
Proof.
  intros H12 H23 x o Ho.
  destruct (H12 x o Ho) as (o2 & Ho2 & Hn2 & Hc2).
  destruct (H23 x o2 Ho2) as (o3 & Ho3 & Hn3 & Hc3).
  exists o3. split_and!; [done|congruence..].
Qed.

Lemma keeps_objects_alloc h o : keeps_objects h (<[fresh (dom h) := o]> h).
Proof.
  intros x ox Hx. exists ox. split_and!; [|done..].
  rewrite lookup_insert_ne; [done|].
  intros <-. by rewrite fresh_lookup in Hx.
Qed.

Lemma keeps_objects_setattr h parent a v h' :
  setattr h parent a v = Ok h' → keeps_objects h h'.
Proof.
  intros (o & Ho & ->)%setattr_Ok_inv x ox Hx.
  destruct (decide (x = parent)) as [->|Hne].
  - rewrite lookup_insert_eq. eexists. split; [done|].
    simpl. rewrite Ho in Hx. by injection Hx as ->.
  - rewrite lookup_insert_ne; [|done]. eauto.
Qed.

Lemma keeps_objects_set_attr h x chain v h' :
  _set_attr h x chain v = Ok h' → keeps_objects h h'.
Proof.
  intros Hset.
  apply _set_attr_Ok_inv in Hset as (walked & a & parent & _ & _ & Hset).
  by eapply keeps_objects_setattr.
Qed.




End patches.

Section patches_clear.
Implicit Types (mods gl : gmap string loc) (h : gmap loc object).
Implicit Types (out : list string) (flag : bool).
Implicit Types (orig : list (key * loc)) (hk : gset string).
Implicit Types (p : string) (m parent : loc) (walked : list string) (a : string).



End patches_clear.










(** ** What no call does *)

Section frames.
Implicit Types (s : state) (o : op).

Lemma patch_resolve_Raise p e s :
  _resolve_target (sys_modules (env s)) p = Raise e →
  (∀ msg, patch_print p msg s = (Raise e, s)) ∧
  (∀ func, patch_function p func s = (Raise e, s)).
Proof.
  intros Hres. split; intros ?; unfold patch_print, patch_function; unfold_m;
    by rewrite Hres.
Qed.

Lemma unhook_inv s :
  (originals (self s) = [] ∧
   unhook s = (Raise (NotPatchedError "No hooks to remove."), s)) ∨
  (∃ out', unhook s
           = (Ok tt,
              mkState (mkHookManager [] ∅)
                (mkWorld (sys_modules (env s)) (main_globals (env s))
                   (heap (env s)) out' (WrapperinitEnd (env s))))).
Proof.
  destruct s as [[orig hk] [mods gl h out flag]]. destruct orig as [|kv orig].
  - by left.
  - right. apply unhook_nonempty.
Qed.

(** What any call leaves alone in the process: the table of modules, the
    namespace of main.py and the objects; and how it can change the flag. *)
Lemma exec_world o s :
  sys_modules (env (exec o s).2) = sys_modules (env s) ∧
  main_globals (env (exec o s).2) = main_globals (env s) ∧
  keeps_objects (heap (env s)) (heap (env (exec o s).2)) ∧
  (WrapperinitEnd (env (exec o s).2) = WrapperinitEnd (env s) ∨
   (∃ p func, o = DoPatchFunction p func) ∧
   (exec o s).1 = Ok tt ∧
   WrapperinitEnd (env (exec o s).2) = true).
Proof.
  destruct o as [p|p msg|p func|p|p|]; cbn [exec].
  - destruct s as [[orig hk] [mods gl h out flag]].
    destruct (hook p _) as [r s'] eqn:Hhook.
    apply hook_inv in Hhook
      as [(m & chain & v & _ & _ & _ & _ & ->)|(e & _ & -> & _)]; simpl;
      split_and!; auto using keeps_objects_refl.
  - destruct (_resolve_target (sys_modules (env s)) p) as [[m chain]|e] eqn:Hres.
    2:{ destruct (patch_resolve_Raise p e s Hres) as [-> _]. simpl.
        split_and!; auto using keeps_objects_refl. }
    destruct (dict_get (m, chain) (originals (self s))) as [v|] eqn:Hget.
    2:{ rewrite (patch_print_NotHooked p msg _ s Hres Hget). simpl.
        split_and!; auto using keeps_objects_refl. }
    destruct s as [[orig hk] [mods gl h out flag]]. simpl in *.
    rewrite (patch_print_found _ msg _ _ _ _ _ _ _ _ _ _ Hres Hget).
    destruct (_set_attr _ m chain _) as [h2|e] eqn:Hset; simpl;
      split_and!; auto using keeps_objects_alloc.
    eapply keeps_objects_trans; [apply keeps_objects_alloc|].
    by eapply keeps_objects_set_attr.
  - destruct (_resolve_target (sys_modules (env s)) p) as [[m chain]|e] eqn:Hres.
    2:{ destruct (patch_resolve_Raise p e s Hres) as [_ ->]. simpl.
        split_and!; auto using keeps_objects_refl. }
    destruct (dict_get (m, chain) (originals (self s))) as [v|] eqn:Hget.
    2:{ rewrite (patch_function_NotHooked p func _ s Hres Hget). simpl.
        split_and!; auto using keeps_objects_refl. }
    destruct s as [[orig hk] [mods gl h out flag]]. simpl in *.
    destruct (function_parts h func) as [[[name b] g]|e] eqn:Hfunc.
    + destruct (patch_function_found p func m chain v name b g orig hk mods gl h
                  out flag Hres Hget Hfunc) as (g' & out1 & ->).
      destruct (_set_attr _ m chain _) as [h2|e] eqn:Hset; simpl;
        split_and!; auto using keeps_objects_alloc.
      * eapply keeps_objects_trans; [apply keeps_objects_alloc|].
        by eapply keeps_objects_set_attr.
      * right. eauto.
    + destruct (patch_function_not_a_function p func m chain v e orig hk mods gl h
                  out flag Hres Hget Hfunc) as (out1 & ->).
      simpl. split_and!; auto using keeps_objects_refl.
  - destruct s as [[orig hk] [mods gl h out flag]].
    destruct (restore p _) as [r s'] eqn:Hrestore.
    apply restore_inv in Hrestore
      as [(e & _ & -> & _)
         |(m & chain & v & _ & _ &
           [(h' & Hset & _ & ->)|(e & _ & _ & ->)])]; simpl;
      split_and!; auto using keeps_objects_refl.
    by eapply keeps_objects_set_attr.
  - destruct s as [[orig hk] [mods gl h out flag]].
    destruct (unhook_target p _) as [r s'] eqn:Hdetach.
    apply unhook_target_inv in Hdetach
      as [(e & _ & -> & _)|(m & chain & v & _ & _ & _ & ->)]; simpl;
      split_and!; auto using keeps_objects_refl.
  - destruct (unhook_inv s) as [[_ ->]|[out' ->]]; simpl;
      split_and!; auto using keeps_objects_refl.
Qed.

Lemma dict_get_remove_Some {K V} `{EqDecision K} (k k' : K) (v : V) d :
  dict_get k' (dict_remove k d) = Some v → k' ≠ k ∧ dict_get k' d = Some v.
Proof.
  intros Hget. destruct (decide (k' = k)) as [->|Hne].
  - by rewrite dict_get_remove_eq in Hget.
  - split; [done|]. by rewrite dict_get_remove_ne in Hget.
Qed.
End frames.


(** X16.  [WrapperinitEnd] is never reset.  After any sequence of manager
    calls the flag is what it was, or it is set and the sequence contains a
    [patch_function] call. *)
Theorem flag_only_set_by_patch_function (ops : list op) (s : state) :
  WrapperinitEnd (env (run_all ops s)) = WrapperinitEnd (env s) ∨
  (WrapperinitEnd (env (run_all ops s)) = true ∧
   ∃ p func, DoPatchFunction p func ∈ ops).
Proof.
  revert s. induction ops as [|o rest IH]; intros s; [by left|].
  simpl. destruct (exec_world o s) as (_ & _ & _ & Hflag).
  destruct (IH (exec o s).2) as [Hrest|(Hset & p & func & Hin)].
  - rewrite Hrest. destruct Hflag as [->|((p & func & ->) & _ & ->)]; [by left|].
    right. split; [done|]. exists p, func. apply list_elem_of_here.
  - right. split; [done|]. exists p, func. by apply list_elem_of_further.
Qed.

(** X17.  The stored original is the value at hook time, for as long as the
    record lives: a record found after a call was either there before the
    call with the same value, or the call was a [hook] on a path resolving
    to that key, and the value is what the live attribute was. *)
Theorem records_created_only_by_hook (o : op) (s : state) (k : key) (v : loc) :
  dict_get k (originals (self (exec o s).2)) = Some v →
  dict_get k (originals (self s)) = Some v ∨
  ∃ p, o = DoHook p ∧
    _resolve_target (sys_modules (env s)) p = Ok k ∧
    _get_attr (heap (env s)) k.1 k.2 = Ok v.
Proof.
  destruct o as [p|p msg|p func|p|p|]; cbn [exec].
  - destruct s as [[orig hk] [mods gl h out flag]].
    destruct (hook p _) as [r s'] eqn:Hhook.
    apply hook_inv in Hhook
      as [(m & chain & v' & Hres & Hget & Hattr & _ & ->)|(e & _ & -> & _)];
      simpl; [|by left].
    destruct (decide ((m, chain) = k)) as [<-|Hne].
    + rewrite dict_get_set_eq. intros [= ->]. right. by exists p.
    + rewrite dict_get_set_ne; [|done]. by left.
  - destruct (patch_frame (DoPatchPrint p msg) s I) as [Hself _].
    cbn [exec] in Hself. rewrite Hself. by left.
  - destruct (patch_frame (DoPatchFunction p func) s I) as [Hself _].
    cbn [exec] in Hself. rewrite Hself. by left.
  - destruct s as [[orig hk] [mods gl h out flag]].
    destruct (restore p _) as [r s'] eqn:Hrestore.
    apply restore_inv in Hrestore
      as [(e & _ & -> & _)
         |(m & chain & v' & _ & _ &
           [(h' & _ & _ & ->)|(e & _ & _ & ->)])]; simpl;
      [by left|intros [_ ?]%dict_get_remove_Some; by left..].
  - destruct s as [[orig hk] [mods gl h out flag]].
    destruct (unhook_target p _) as [r s'] eqn:Hdetach.
    apply unhook_target_inv in Hdetach
      as [(e & _ & -> & _)|(m & chain & v' & _ & _ & _ & ->)]; simpl;
      [by left|intros [_ ?]%dict_get_remove_Some; by left].
  - destruct (unhook_inv s) as [[_ ->]|[out' ->]]; simpl; [by left|done].
Qed.

Lemma records_created_only_by_hook_witness :
  let s := (run [DoHook "os.path.join"; DoPatchPrint "os.path.join" "hi"] ex_state).2 in
  dict_get (2%positive, ["join"]) (originals (self s)) = Some 3%positive ∨
  ∃ p, DoPatchPrint "os.path.join" "again" = DoHook p ∧
    _resolve_target (sys_modules (env s)) p = Ok (2%positive, ["join"]) ∧
    _get_attr (heap (env s)) 2%positive ["join"] = Ok 3%positive.
Proof.
  apply (records_created_only_by_hook (DoPatchPrint "os.path.join" "again")
           (run [DoHook "os.path.join"; DoPatchPrint "os.path.join" "hi"] ex_state).2
           (2%positive, ["join"]) 3%positive).
  vm_compute. reflexivity.
Defined.

Lemma records_have_markers_step (o : op) (s : state) :
  records_have_markers s → records_have_markers (exec o s).2.
Proof.
  intros Hinv. destruct o as [p|p msg|p func|p|p|]; cbn [exec].
  - destruct s as [[orig hk] [mods gl h out flag]].
    destruct (hook p _) as [r s'] eqn:Hhook.
    apply hook_inv in Hhook
      as [(m & chain & v' & Hres & Hget & Hattr & _ & ->)|(e & _ & -> & _)];
      simpl; [|done].
    intros k v. simpl. destruct (decide ((m, chain) = k)) as [<-|Hne].
    + intros _. exists p. split; [|done].
      apply elem_of_union_l. by apply elem_of_singleton.
    + rewrite dict_get_set_ne; [|done]. intros Hk.
      destruct (Hinv k v Hk) as (q & Hq & Hresq). exists q.
      split; [by apply elem_of_union_r|done].
  - destruct (patch_frame (DoPatchPrint p msg) s I) as [Hself Hmods].
    cbn [exec] in Hself, Hmods.
    intros k v. rewrite Hself, Hmods. apply Hinv.
  - destruct (patch_frame (DoPatchFunction p func) s I) as [Hself Hmods].
    cbn [exec] in Hself, Hmods.
    intros k v. rewrite Hself, Hmods. apply Hinv.
  - destruct s as [[orig hk] [mods gl h out flag]].
    destruct (restore p _) as [r s'] eqn:Hrestore.
    apply restore_inv in Hrestore
      as [(e & _ & -> & _)
         |(m & chain & v' & Hres & _ &
           [(h' & _ & _ & ->)|(e & _ & _ & ->)])]; [done| |].
    + intros k v [Hne Hk]%dict_get_remove_Some.
      destruct (Hinv k v Hk) as (q & Hq & Hresq). exists q. simpl in *.
      split; [|done]. apply elem_of_difference. split; [done|].
      intros ->%elem_of_singleton. congruence.
    + intros k v [Hne Hk]%dict_get_remove_Some.
      destruct (Hinv k v Hk) as (q & Hq & Hresq). by exists q.
  - destruct s as [[orig hk] [mods gl h out flag]].
    destruct (unhook_target p _) as [r s'] eqn:Hdetach.
    apply unhook_target_inv in Hdetach
      as [(e & _ & -> & _)|(m & chain & v' & Hres & _ & _ & ->)]; [done|].
    intros k v [Hne Hk]%dict_get_remove_Some.
    destruct (Hinv k v Hk) as (q & Hq & Hresq). exists q. simpl in *.
    split; [|done]. apply elem_of_difference. split; [done|].
    intros ->%elem_of_singleton. congruence.
  - destruct (unhook_inv s) as [[_ ->]|[out' ->]]; [done|].
    intros k v. simpl. done.
Qed.

(** X18.  Every record has a marker.  If every key with a record is the
    key of some path in the hooked set, this still holds after any sequence
    of manager calls, whatever they return or raise, with no condition on
    the calls. *)
Theorem records_have_markers_preserved (ops : list op) (s : state) :
  records_have_markers s → records_have_markers (run_all ops s).
Proof.
  revert s. induction ops as [|o rest IH]; intros s Hinv; [done|].
  simpl. by apply IH, records_have_markers_step.
Qed.

Lemma records_have_markers_preserved_witness :
  records_have_markers
    (run_all [DoHook "os.path.join"; DoRestore "posixpath.join";
              DoHook "os.path"; DoRestore "os.path";
              DoHook "os.getcwd"; DoPatchPrint "os.getcwd" "hi";
              DoUnhookTarget "os.getcwd"] ex_state).
Proof.
  apply (records_have_markers_preserved _ ex_state).
  intros k v Hk. simpl in Hk. discriminate.
Defined.

(** ** HookUtilities *)

(** X19.  [is_hooked] follows the calls that return normally: it answers
    [True] for the path of a [hook], [False] for the path of a [restore] or
    an [unhook_target]; after [unhook], [list_hooks] is empty; and a patch
    does not change any answer. *)
Theorem is_hooked_follows_calls (o : op) (s s' : state) :
  exec o s = (Ok tt, s') →
  match o with
  | DoHook p => is_hooked p s' = (Ok true, s')
  | DoRestore p | DoUnhookTarget p => is_hooked p s' = (Ok false, s')
  | DoUnhook => list_hooks s' = (Ok [], s')
  | DoPatchPrint _ _ | DoPatchFunction _ _ =>
      ∀ q, (is_hooked q s').1 = (is_hooked q s).1
  end.
Proof.
  destruct o as [p|p msg|p func|p|p|]; cbn [exec]; intros Hexec.
  - destruct s as [[orig hk] [mods gl h out flag]].
    apply hook_inv in Hexec
      as [(m & chain & v & _ & _ & _ & _ & ->)|(e & ? & _)]; [|done].
    unfold is_hooked, gets. simpl. rewrite bool_decide_eq_true_2; [done|].
    apply elem_of_union_l. by apply elem_of_singleton.
  - destruct (patch_frame (DoPatchPrint p msg) s I) as [Hself _].
    cbn [exec] in Hself. rewrite Hexec in Hself. simpl in Hself.
    intros q. unfold is_hooked, gets. simpl. by rewrite Hself.
  - destruct (patch_frame (DoPatchFunction p func) s I) as [Hself _].
    cbn [exec] in Hself. rewrite Hexec in Hself. simpl in Hself.
    intros q. unfold is_hooked, gets. simpl. by rewrite Hself.
  - destruct s as [[orig hk] [mods gl h out flag]].
    apply restore_inv in Hexec
      as [(e & ? & _)
         |(m & chain & v & _ & _ & [(h' & _ & _ & ->)|(e & _ & ? & _)])];
      [done| |done].
    unfold is_hooked, gets. simpl. rewrite bool_decide_eq_false_2; [done|].
    apply not_elem_of_discard.
  - destruct s as [[orig hk] [mods gl h out flag]].
    apply unhook_target_inv in Hexec
      as [(e & ? & _)|(m & chain & v & _ & _ & _ & ->)]; [done|].
    unfold is_hooked, gets. simpl. rewrite bool_decide_eq_false_2; [done|].
    apply not_elem_of_discard.
  - destruct (unhook_inv s) as [[_ Hraise]|[out' Hok]].
    + rewrite Hraise in Hexec. done.
    + rewrite Hok in Hexec. injection Hexec as <-.
      unfold list_hooks, gets. simpl. by rewrite elements_empty.
Qed.

Lemma is_hooked_follows_calls_witness :
  is_hooked "os.path.join" (hook "os.path.join" ex_state).2
  = (Ok true, (hook "os.path.join" ex_state).2).
Proof.
  apply (is_hooked_follows_calls (DoHook "os.path.join") ex_state
           (hook "os.path.join" ex_state).2).
  reflexivity.
Defined.

(** X20.  [get_original_function] answers by key, [is_hooked] by path.
    After a [hook] that returned normally and any number of patches,
    [get_original_function] returns, through every path that resolves to the
    hooked key, the value that the live attribute had when [hook] was
    called, and changes nothing; for such a path other than the hooked one,
    and not itself in the hooked set, [is_hooked] answers [False]. *)
Theorem get_original_function_after_hook
    (s s1 : state) (p1 p2 : string) (k : key) (patches : list op) :
  _resolve_target (sys_modules (env s)) p1 = Ok k →
  _resolve_target (sys_modules (env s)) p2 = Ok k →
  hook p1 s = (Ok tt, s1) →
  Forall is_patch patches →
  let s2 := run_all patches s1 in
  ∃ v, _get_attr (heap (env s)) k.1 k.2 = Ok v ∧
    get_original_function p2 s2 = (Ok (Some v), s2) ∧
    (p2 ≠ p1 → p2 ∉ hooked (self s) → is_hooked p2 s2 = (Ok false, s2)).
Proof.
  intros Hres1 Hres2 Hhook Hpatches s2.
  destruct (patches_frame patches s1 Hpatches) as [Hself Hmods].
  fold s2 in Hself. fold s2 in Hmods.
  destruct s as [[orig hk] [mods gl h out flag]]. simpl in *.
  apply hook_inv in Hhook
    as [(m & chain & v & Hres & Hget & Hattr & _ & ->)|(e & ? & _)]; [|done].
  assert (k = (m, chain)) as -> by congruence. simpl in *.
  exists v. split_and!; [done| |].
  - unfold get_original_function. unfold_m. rewrite Hmods, Hres2. simpl.
    rewrite Hself. simpl. by rewrite dict_get_set_eq.
  - intros Hne Hnot. unfold is_hooked, gets. rewrite Hself. simpl.
    rewrite bool_decide_eq_false_2; [done|].
    intros [Hin%elem_of_singleton|Hin]%elem_of_union; done.
Qed.

Lemma get_original_function_after_hook_witness :
  let s2 := run_all [DoPatchPrint "os.path.join" "hi"]
              (hook "os.path.join" ex_state).2 in
  ∃ v, _get_attr (heap (env ex_state)) 2%positive ["join"] = Ok v ∧
    get_original_function "posixpath.join" s2 = (Ok (Some v), s2) ∧
    ("posixpath.join" ≠ "os.path.join" →
     "posixpath.join" ∉ hooked (self ex_state) →
     is_hooked "posixpath.join" s2 = (Ok false, s2)).
Proof.
  apply (get_original_function_after_hook ex_state _ "os.path.join"
           "posixpath.join" (2%positive, ["join"])).
  - vm_compute. reflexivity.
  - vm_compute. reflexivity.
  - reflexivity.
  - repeat constructor.
Defined.

Section safe_call_facts.
Variable builtin_sem : nat → list loc → list (string * loc) → outcome.
Variable user_sem :
  nat → gmap string loc → list loc → list (string * loc) → outcome.
Variable str_exc : exn → string.




End safe_call_facts.


(** ** Listing the functions of a module *)

#[global] Instance member_le_total : Total member_le.
Proof. intros x y. unfold member_le. apply (total String.le). Qed.

#[global] Instance member_le_trans : Transitive member_le.
Proof. intros x y z. unfold member_le. apply (transitivity (R := String.le)). Qed.

Section getmembers_facts.
Implicit Types (h : gmap loc object) (obj : loc) (predicate : loc → bool).

Lemma elem_of_getmembers h obj predicate name v :
  (name, v) ∈ getmembers h obj predicate ↔
  getattr h obj name = Ok v ∧ predicate v = true.
Proof.
  unfold getmembers, getattr. destruct (h !! obj) as [o|].
  - rewrite merge_sort_Permutation, list_elem_of_filter, elem_of_map_to_list.
    simpl. split.
    + intros [Hp ->]. done.
    + intros [Hv Hp]. destruct (obj_attrs o !! name); naive_solver.
  - split; [intros Hin; by apply not_elem_of_nil in Hin|by intros [? _]].
Qed.

Lemma getmembers_names_NoDup h obj predicate :
  NoDup (getmembers h obj predicate).*1.
Proof.
  apply NoDup_fmap_fst.
  - intros name v1 v2 [Hv1 _]%elem_of_getmembers [Hv2 _]%elem_of_getmembers.
    congruence.
  - unfold getmembers. destruct (h !! obj) as [o|]; [|constructor].
    rewrite merge_sort_Permutation. apply NoDup_filter, NoDup_map_to_list.
Qed.

Lemma getmembers_names_sorted h obj predicate :
  StronglySorted String.le (getmembers h obj predicate).*1.
Proof.
  apply (StronglySorted_fmap _ member_le); [done|].
  unfold getmembers. destruct (h !! obj) as [o|]; [|constructor].
  apply StronglySorted_merge_sort; apply _.
Qed.

Lemma elem_of_getmembers_names h obj predicate name :
  name ∈ (getmembers h obj predicate).*1 ↔
  ∃ v, getattr h obj name = Ok v ∧ predicate v = true.
Proof.
  rewrite list_elem_of_fmap. split.
  - intros ([nm v] & -> & Hin). exists v. by apply elem_of_getmembers.
  - intros (v & Hin). exists (name, v). split; [done|].
    by apply elem_of_getmembers.
Qed.

(** The loop of [dump_functions] writes one numbered line per name. *)
Lemma dump_loop_spec (i : nat) funcs hm mods gl hp out flag :
  dump_loop i funcs (mkState hm (mkWorld mods gl hp out flag))
  = (Ok tt,
     mkState hm
       (mkWorld mods gl hp
          (out ++ imap (λ j f, (pretty (i + j) +:+ ". Function: " +:+ f) +:+ newline)
                    funcs)
          flag)).
Proof.
  revert i out. induction funcs as [|f rest IH]; intros i out.
  - simpl. unfold ret. by rewrite app_nil_r.
  - assert (imap (λ j f, (pretty (i + j) +:+ ". Function: " +:+ f) +:+ newline)
              (f :: rest)
            = ((pretty i +:+ ". Function: " +:+ f) +:+ newline)
                :: imap (λ j f, (pretty (S i + j) +:+ ". Function: " +:+ f)
                                +:+ newline) rest) as ->.
    { rewrite imap_cons, Nat.add_0_r. f_equal.
      apply imap_ext. intros j f' _. simpl. by rewrite Nat.add_succ_r. }
    cbn [dump_loop]. unfold bind at 1. unfold print, write, modify.
    cbn [self env sys_modules main_globals heap stdout WrapperinitEnd].
    rewrite IH, <- app_assoc. reflexivity.
Qed.
End getmembers_facts.

(** X23.  [scan_module_functions], by what the import does.  For a module
    that imports it returns, without changing anything, the names of the
    attributes of the module that are Python functions: each such name once,
    no other name, in ascending order.  For a name that is not found it
    returns the empty list after one diagnostic line.  Any other exception of
    the import (the [ValueError] of the empty name, the [TypeError] of a
    relative name) is raised to the caller. *)
Theorem scan_module_functions_outcomes (module_name : string) (s : state) :
  match import_module (sys_modules (env s)) module_name with
  | Ok module =>
      ∃ names, scan_module_functions module_name s = (Ok names, s) ∧
        StronglySorted String.le names ∧
        NoDup names ∧
        ∀ name, name ∈ names ↔
          ∃ v, getattr (heap (env s)) module name = Ok v ∧
               isfunction (heap (env s)) v = true
  | Raise (ModuleNotFoundError _) =>
      ∃ s', scan_module_functions module_name s = (Ok [], s') ∧
        self s' = self s ∧
        heap (env s') = heap (env s) ∧
        stdout (env s')
        = (stdout (env s)
           ++ ["[HookUtilities] Module '" +:+ module_name +:+ "' not found."
               +:+ newline])%list
  | Raise e => scan_module_functions module_name s = (Raise e, s)
  end.
Proof.
  destruct s as [hm [mods gl h out flag]].
  unfold scan_module_functions. unfold_m.
  destruct (import_module mods module_name) as [module|e] eqn:Himp.
  - eexists. split; [done|]. split_and!.
    + apply getmembers_names_sorted.
    + apply getmembers_names_NoDup.
    + intros name. apply elem_of_getmembers_names.
  - destruct e; try done. eexists. split; [done|]. simpl.
    split_and!; [done..|]. by rewrite !append_assoc.
Qed.

(** X24.  [dump_functions] prints what [scan_module_functions] returns.
    For a module that imports under a name, the lines that [dump_functions]
    writes for the module are the names that [scan_module_functions] returns
    for that name, in the same order, numbered from 1; nothing else
    changes. *)
Theorem dump_functions_prints_scanned_names
    (module_name : string) (module : loc) (s : state) :
  import_module (sys_modules (env s)) module_name = Ok module →
  ∃ names s',
    scan_module_functions module_name s = (Ok names, s) ∧
    dump_functions module s = (Ok tt, s') ∧
    stdout (env s')
    = (stdout (env s)
       ++ imap (λ i f, pretty (S i) +:+ ". Function: " +:+ f +:+ newline) names)%list ∧
    self s' = self s ∧
    heap (env s') = heap (env s).
Proof.
  destruct s as [hm [mods gl h out flag]]. simpl. intros Himp.
  eexists _, _. split_and!.
  - unfold scan_module_functions. unfold_m. rewrite Himp. reflexivity.
  - unfold dump_functions. unfold bind, gets. cbn [env heap].
    apply dump_loop_spec.
  - simpl. f_equal. apply imap_ext. intros i f _. simpl.
    by rewrite !append_assoc.
  - done.
  - done.
Qed.

Lemma dump_functions_prints_scanned_names_witness :
  let s := (run [DoHook "os.getcwd"; DoPatchPrint "os.getcwd" "hi"] ex_state).2 in
  ∃ names s',
    scan_module_functions "os" s = (Ok names, s) ∧
    dump_functions 1%positive s = (Ok tt, s') ∧
    stdout (env s')
    = (stdout (env s)
       ++ imap (λ i f, pretty (S i) +:+ ". Function: " +:+ f +:+ newline) names)%list ∧
    self s' = self s ∧
    heap (env s') = heap (env s).
Proof.
  apply (dump_functions_prints_scanned_names "os" 1%positive).
  vm_compute. reflexivity.
Defined.

(** The small process: [os.path] has one Python function; [os] has none
    until its built-in [getcwd] is patched, after which the wrapper is
    listed under the name [getcwd]. *)
Example scan_examples :
  (scan_module_functions "os.path" ex_state).1 = Ok ["join"] ∧
  (scan_module_functions "os" ex_state).1 = Ok [] ∧
  (scan_module_functions "os"
     (run [DoHook "os.getcwd"; DoPatchPrint "os.getcwd" "hi"] ex_state).2).1
  = Ok ["getcwd"] ∧
  (scan_module_functions "" ex_state).1 = Raise (ValueError "Empty module name").
Proof. vm_compute. split_and!; reflexivity. Qed.

(** ** The application *)

(** X25.  The theme toggle.  After [toggle_dark_mode] the theme is
    ["Dark"] or ["Light"], whatever it was, and no other field changes; two
    toggles give the application back exactly when the theme was one of the
    two. *)
Theorem toggle_dark_mode_twice (app : UltraInjectorApp) :
  (theme_style (toggle_dark_mode app) = "Dark" ∨
   theme_style (toggle_dark_mode app) = "Light") ∧
  toggle_dark_mode app
  = mkApp (theme_style (toggle_dark_mode app)) (method_button_text app)
      (current app) (menu_open app) (dialog app) (scheduled app) ∧
  (toggle_dark_mode (toggle_dark_mode app) = app ↔
   theme_style app = "Dark" ∨ theme_style app = "Light").
Proof.
  destruct app as [style method screen menu dlg sched].
  unfold toggle_dark_mode. simpl. split_and!.
  - case_decide; auto.
  - done.
  - destruct (decide (style = "Dark")) as [->|Hne]; simpl.
    + split; auto.
    + split.
      * intros [= <-]. auto.
      * intros [?| ->]; done.
Qed.

(** X26.  The action button.  [perform_action] opens a dialog whose title
    is the selected method; the text is ["No method selected"] exactly when
    the method is none of ["Patch"], ["Inject"] and ["Die"], each of which
    has its own text; an exit with code 0 is scheduled, three seconds ahead,
    exactly when the method is ["Die"]; the theme, the method, the screen and
    the menu are left as they were. *)
Theorem perform_action_outcomes (app : UltraInjectorApp) :
  let method := method_button_text app in
  ∃ message,
    perform_action app
    = mkApp (theme_style app) method (current app) (menu_open app)
        (Some (method, message))
        (if decide (method = "Die") then (scheduled app ++ [(SysExit 0, 3)])%list
         else scheduled app) ∧
    (message = "No method selected" ↔
     method ≠ "Patch" ∧ method ≠ "Inject" ∧ method ≠ "Die") ∧
    (method = "Patch" → message = "Hooked and patched com.axelbolt.standoff2") ∧
    (method = "Inject" → message = "Injected") ∧
    (method = "Die" → message = "Alr goodbyeðŸ˜”").
Proof.
  destruct app as [style method screen menu dlg sched].
  unfold perform_action. simpl.
  destruct (decide (method = "Patch")) as [->|HP].
  { eexists. split; [reflexivity|]. split_and!; [|done..].
    split; [discriminate|]. intros [? _]. done. }
  destruct (decide (method = "Inject")) as [->|HI].
  { eexists. split; [reflexivity|]. split_and!; [|done..].
    split; [discriminate|]. intros (_ & ? & _). done. }
  destruct (decide (method = "Die")) as [->|HD].
  { eexists. split; [reflexivity|]. split_and!; [|done..].
    split; [discriminate|]. intros (_ & _ & ?). done. }
  eexists. split; [reflexivity|]. split_and!; done.
Qed.
